(** * Rotation conversion engine (conversion.js): embedding and properties

    The conversion functions of [src/conversion.js] are embedded as programs
    of a small state-and-exception monad over a store of JavaScript arrays.
    Array parameters ([out], [q], [m]) are references into that store, so the
    in-place updates the functions perform on their arguments, and what is
    left behind when a function throws, are part of the model.

    JavaScript numbers are kept abstract behind the [Number] interface: the
    functions are written once, for any implementation of the arithmetic
    (IEEE doubles with the host's [Math] library are one; no law is asked of
    the operations). Properties that only depend on the control flow are
    proved for every implementation; properties about values are proved for
    the real-number implementation [RNumber], in which every operation is
    exact.

    The gl-matrix routines that [conversion.js] calls are not part of the
    repository's sources; they are modelled here, each with a note.

    Layout: the embedding and the vocabulary of the statements come first,
    then the lemmas that run the programs, then the properties. *)

From Stdlib Require Import Reals Lra ZArith.
From Stdlib Require Import RNsatz.
From stdpp Require Import gmap strings list fin_maps.

Local Open Scope string_scope.

(** ** Numbers *)

(** The operations of JavaScript numbers that [conversion.js] and the
    gl-matrix routines it calls rely on. [dec m e] is the decimal literal
    [m]e[e]; [fround] is the rounding a [Float32Array] applies on a store. *)
Class Number := {
  num : Type;
  dec : Z -> Z -> num;
  Math_PI : num;
  add : num -> num -> num;
  sub : num -> num -> num;
  mul : num -> num -> num;
  div : num -> num -> num;
  ltb : num -> num -> bool;
  gtb : num -> num -> bool;
  geb : num -> num -> bool;
  eqb : num -> num -> bool;
  Math_sqrt : num -> num;
  Math_sin : num -> num;
  Math_cos : num -> num;
  Math_asin : num -> num;
  Math_acos : num -> num;
  Math_atan2 : num -> num -> num;
  Math_abs : num -> num;
  Math_sign : num -> num;
  Math_min : num -> num -> num;
  Math_max : num -> num -> num;
  fround : num -> num
}.

Declare Scope js_scope.
Delimit Scope js_scope with js.
Infix "+" := add : js_scope.
Infix "-" := sub : js_scope.
Infix "*" := mul : js_scope.
Infix "/" := div : js_scope.
Infix "<?" := ltb : js_scope.
Infix ">?" := gtb : js_scope.
Infix ">=?" := geb : js_scope.
Infix "===" := eqb (at level 70) : js_scope.

(** Integer literals. *)
Definition lit `{Number} (n : Z) : num := dec n 0.

(** ** The store of arrays *)

(** gl-matrix allocates its vectors, quaternions and matrices as
    [Float32Array]s; the matrix read from the form is a plain [Array]. *)
Inductive kind := JSArray | Float32Array.

(** An element [None] is a hole (reads as [undefined]). *)
Record array `{Number} := Arr { akind : kind; elems : list (option num) }.
Arguments Arr {_} akind elems.

Definition loc := positive.

Abbreviation store := (gmap loc array).

(** Errors. Every [throw] of [conversion.js] is
    [new Error(fn + ': degOrRad must be "deg" or "rad"')], recorded here as
    [InvalidUnit] with the name of the function that throws; [InvalidAxis] is
    [new Error("Invalid axis: zero vector")], thrown by the form layer
    ([main.js]). *)
Inductive error := InvalidUnit (fn : string) | InvalidAxis.

(** Outcome of a call: a value, a thrown error, or [Stuck] where the model
    stops: the program used as a number something that is not one (a missing
    array, an index out of range, a hole), or entered a library path that
    [conversion.js] never takes. *)
Inductive outcome (A : Type) :=
| Ok (a : A)
| Throw (e : error)
| Stuck.
Arguments Ok {A} a.
Arguments Throw {A} e.
Arguments Stuck {A}.

Section Engine.
Context `{N : Number}.
Local Open Scope js_scope.

Definition M (A : Type) : Type := store -> store * outcome A.

Definition ret {A} (a : A) : M A := fun s => (s, Ok a).

Definition bind {A B} (m : M A) (k : A -> M B) : M B :=
  fun s =>
    match m s with
    | (s', Ok a) => k a s'
    | (s', Throw e) => (s', Throw e)
    | (s', Stuck) => (s', Stuck)
    end.

Definition throw {A} (e : error) : M A := fun s => (s, Throw e).

#[global] Instance M_ret : MRet M := @ret.
#[global] Instance M_bind : MBind M := fun A B k m => bind m k.

(** [a[i]] used as a number. *)
Definition get (a : loc) (i : nat) : M num :=
  fun s =>
    match s !! a with
    | Some arr =>
        match elems arr !! i with
        | Some (Some v) => (s, Ok v)
        | _ => (s, Stuck)
        end
    | None => (s, Stuck)
    end.

(** The elements of an array after [a[i] = v]: a [Float32Array] rounds the
    value and ignores an index out of range, an [Array] grows up to [i]. *)
Definition store_elem (arr : array) (i : nat) (v : num) : array :=
  match akind arr with
  | Float32Array =>
      Arr Float32Array (<[i := Some (fround v)]> (elems arr))
  | JSArray =>
      if (i <? length (elems arr))%nat
      then Arr JSArray (<[i := Some v]> (elems arr))
      else Arr JSArray
             (elems arr ++ replicate (i - length (elems arr)) None ++ [Some v])
  end.

(** [a[i] = v]. *)
Definition set (a : loc) (i : nat) (v : num) : M unit :=
  fun s =>
    match s !! a with
    | Some arr => (<[a := store_elem arr i v]> s, Ok tt)
    | None => (s, Stuck)
    end.

(** [new glMatrix.ARRAY_TYPE(n)]: a fresh zero-filled [Float32Array]. *)
Definition new_array (n : nat) : M loc :=
  fun s =>
    let l := fresh (dom s) in
    (<[l := Arr Float32Array (replicate n (Some (lit 0)))]> s, Ok l).

Definition stuck {A} : M A := fun s => (s, Stuck).

(** Short-circuit [&&] of two conditions that read the store. *)
Definition andM (c1 c2 : M bool) : M bool :=
  bind c1 (fun b => if b then c2 else ret false).

(** [e1 === e2] on two numbers read from the store. *)
Definition strict_eq (e1 e2 : M num) : M bool :=
  bind e1 (fun a => bind e2 (fun b => ret (a === b))).

(** ** gl-matrix *)

(** Modelled from the spec: [glm.toDegree] and [glm.toRadian] belong to the
    gl-matrix library, which is not under src/; "unit conversion applied if
    degrees requested", as gl-matrix does it, by one multiplication with the
    constant [180 / Math.PI], respectively [Math.PI / 180]. *)
Definition toDegree (a : num) : num := a * (lit 180 / Math_PI).
Definition toRadian (a : num) : num := a * (Math_PI / lit 180).

(** Modelled from the spec: gl-matrix's constructors are not under src/.
    [vec3.fromValues], [quat.create] (the identity quaternion) and
    [mat3.create] (the identity matrix, column-major) each allocate a fresh
    zero-filled [Float32Array] and fill it. *)
Definition vec3_fromValues (x y z : num) : M loc :=
  out ← new_array 3;
  set out 0 x;;
  set out 1 y;;
  set out 2 z;;
  mret out.

Definition quat_create : M loc :=
  out ← new_array 4;
  set out 3 (lit 1);;
  mret out.

Definition mat3_create : M loc :=
  out ← new_array 9;
  set out 0 (lit 1);;
  set out 4 (lit 1);;
  set out 8 (lit 1);;
  mret out.

(** Modelled from the spec: [vec3.normalize] is not under src/. "Normalizes
    the axis": scales by [1 / sqrt(len)] where [len] is the squared length;
    gl-matrix leaves the scale at [len] itself when [len > 0] fails, so the
    zero vector is returned as it is and nothing is thrown. *)
Definition vec3_normalize (out a : loc) : M loc :=
  x ← get a 0;
  y ← get a 1;
  z ← get a 2;
  let len := x * x + y * y + z * z in
  let len := if len >? lit 0 then lit 1 / Math_sqrt len else len in
  a0 ← get a 0; set out 0 (a0 * len);;
  a1 ← get a 1; set out 1 (a1 * len);;
  a2 ← get a 2; set out 2 (a2 * len);;
  mret out.

(** Modelled from the spec: [quat.normalize] (gl-matrix's [vec4.normalize])
    is not under src/. Same scheme on four components, all read before the
    first write, so that [out] may be [a] itself. *)
Definition quat_normalize (out a : loc) : M loc :=
  x ← get a 0;
  y ← get a 1;
  z ← get a 2;
  w ← get a 3;
  let len := x * x + y * y + z * z + w * w in
  let len := if len >? lit 0 then lit 1 / Math_sqrt len else len in
  set out 0 (x * len);;
  set out 1 (y * len);;
  set out 2 (z * len);;
  set out 3 (w * len);;
  mret out.

(** [glMatrix.EPSILON]. *)
Definition EPSILON : num := dec 1 (-6).

(** Modelled from the spec: [quat.getAxisAngle] is not under src/. "axis =
    (x,y,z)/sin(angle/2), angle = 2·acos(w), with the conventional degenerate
    case (angle ≈ 0) returning an arbitrary fixed axis", which in gl-matrix
    is (1,0,0), taken when the sine is not above [EPSILON]. Writes the axis
    to [out_axis[0..2]] and returns the angle in radians. *)
Definition quat_getAxisAngle (out_axis q : loc) : M num :=
  q3 ← get q 3;
  let rad := Math_acos q3 * lit 2 in
  let s := Math_sin (rad / lit 2) in
  (if s >? EPSILON then
     q0 ← get q 0; set out_axis 0 (q0 / s);;
     q1 ← get q 1; set out_axis 1 (q1 / s);;
     q2 ← get q 2; set out_axis 2 (q2 / s)
   else
     set out_axis 0 (lit 1);;
     set out_axis 1 (lit 0);;
     set out_axis 2 (lit 0));;
  mret rad.

(** Modelled from the spec: [quat.setAxisAngle] is not under src/. "Builds
    the quaternion via the standard axis-angle formula (sin/cos of
    half-angle)". *)
Definition quat_setAxisAngle (out axis : loc) (rad : num) : M loc :=
  let rad := rad * dec 5 (-1) in
  let s := Math_sin rad in
  a0 ← get axis 0; set out 0 (s * a0);;
  a1 ← get axis 1; set out 1 (s * a1);;
  a2 ← get axis 2; set out 2 (s * a2);;
  set out 3 (Math_cos rad);;
  mret out.

(** Modelled from the spec: [quat.fromEuler] is not under src/. The
    "degree-based builder": its angles are in degrees, and for the order
    ["zyx"], the only one [conversion.js] passes, it composes the three
    half-angle rotations as below. Other orders are outside the model. *)
Definition quat_fromEuler (out : loc) (x y z : num) (order : string) : M loc :=
  let halfToRad := Math_PI / lit 360 in
  let x := x * halfToRad in
  let z := z * halfToRad in
  let y := y * halfToRad in
  let sx := Math_sin x in
  let cx := Math_cos x in
  let sy := Math_sin y in
  let cy := Math_cos y in
  let sz := Math_sin z in
  let cz := Math_cos z in
  if String.eqb order "zyx" then
    set out 0 (sx * cy * cz - cx * sy * sz);;
    set out 1 (cx * sy * cz + sx * cy * sz);;
    set out 2 (cx * cy * sz - sx * sy * cz);;
    set out 3 (cx * cy * cz + sx * sy * sz);;
    mret out
  else stuck.

(** Modelled from the spec: [mat3.fromQuat] is not under src/. "The standard
    quaternion→matrix closed form", column-major. *)
Definition mat3_fromQuat (out q : loc) : M loc :=
  x ← get q 0;
  y ← get q 1;
  z ← get q 2;
  w ← get q 3;
  let x2 := x + x in
  let y2 := y + y in
  let z2 := z + z in
  let xx := x * x2 in
  let yx := y * x2 in
  let yy := y * y2 in
  let zx := z * x2 in
  let zy := z * y2 in
  let zz := z * z2 in
  let wx := w * x2 in
  let wy := w * y2 in
  let wz := w * z2 in
  set out 0 (lit 1 - yy - zz);;
  set out 3 (yx - wz);;
  set out 6 (zx + wy);;
  set out 1 (yx + wz);;
  set out 4 (lit 1 - xx - zz);;
  set out 7 (zy - wx);;
  set out 2 (zx - wy);;
  set out 5 (zy + wx);;
  set out 8 (lit 1 - xx - yy);;
  mret out.

(** ** conversion.js *)

Definition quaternionToEuler (out quat : loc) (degOrRad : string) : M loc :=
  x ← get quat 0;
  y ← get quat 1;
  z ← get quat 2;
  w ← get quat 3;
  let sinr_cosp := lit 2 * (w * x + y * z) in
  let cosr_cosp := lit 1 - lit 2 * (x * x + y * y) in
  let alpha := Math_atan2 sinr_cosp cosr_cosp in
  let sinp := lit 2 * (w * y - z * x) in
  let beta :=
    if Math_abs sinp >=? lit 1
    then Math_sign sinp * (Math_PI / lit 2)
    else Math_asin sinp in
  let siny_cosp := lit 2 * (w * z + x * y) in
  let cosy_cosp := lit 1 - lit 2 * (y * y + z * z) in
  let gamma := Math_atan2 siny_cosp cosy_cosp in
  (if String.eqb degOrRad "deg" then
     set out 0 (toDegree gamma);;
     set out 1 (toDegree beta);;
     set out 2 (toDegree alpha)
   else if String.eqb degOrRad "rad" then
     set out 0 gamma;;
     set out 1 beta;;
     set out 2 alpha
   else mret tt);;
  mret out.

Definition quaternionToAxisAngle (out q : loc) (degOrRad : string) : M loc :=
  quat_normalize q q;;
  angle ← quat_getAxisAngle out q;
  (if String.eqb degOrRad "deg" then
     set out 3 (toDegree angle)
   else if String.eqb degOrRad "rad" then
     set out 3 angle
   else throw (InvalidUnit "quaternionToAxisAngle"));;
  mret out.

Definition quaternionToMatrix (q : loc) : M loc :=
  c ← andM (andM (strict_eq (get q 0) (get q 1))
                 (strict_eq (get q 1) (get q 2)))
        (strict_eq (get q 2) (ret (lit 0)));
  if (c : bool) then mat3_create
  else
    quat_normalize q q;;
    mat ← mat3_create;
    mat3_fromQuat mat q;;
    mret mat.

Definition axisAngleToQuaternion (x y z angle : num) (degOrRad : string)
  : M loc :=
  axis ← vec3_fromValues x y z;
  vec3_normalize axis axis;;
  quatOut ← quat_create;
  (if String.eqb degOrRad "deg" then
     quat_setAxisAngle quatOut axis (toRadian angle)
   else if String.eqb degOrRad "rad" then
     quat_setAxisAngle quatOut axis angle
   else throw (InvalidUnit "axisAngleToQuaternion"));;
  quat_normalize quatOut quatOut;;
  mret quatOut.

Definition eulerToQuaternion (alpha beta gamma : num) (degOrRad : string)
  : M loc :=
  q ← quat_create;
  (if String.eqb degOrRad "deg" then
     quat_fromEuler q gamma beta alpha "zyx"
   else if String.eqb degOrRad "rad" then
     let aDeg := toDegree alpha in
     let bDeg := toDegree beta in
     let gDeg := toDegree gamma in
     quat_fromEuler q gDeg bDeg aDeg "zyx"
   else throw (InvalidUnit "eulerToQuaternion"));;
  quat_normalize q q;;
  mret q.

Definition matrixToAxisAngle (out m : loc) (degOrRad : string) : M loc :=
  m0 ← get m 0;
  m4 ← get m 4;
  m8 ← get m 8;
  let trace := m0 + m4 + m8 in
  let angle :=
    Math_acos (Math_min (Math_max ((trace - lit 1) / lit 2) (lit (-1))) (lit 1)) in
  xyz ←
    (if Math_abs angle <? dec 1 (-6) then
       mret (lit 1, lit 0, lit 0)
     else if Math_abs (Math_PI - angle) <? dec 1 (-6) then
       m0 ← get m 0; m4 ← get m 4; m8 ← get m 8;
       if (m0 >=? m4) && (m0 >=? m8) then
         m0 ← get m 0;
         let x := Math_sqrt ((m0 + lit 1) / lit 2) in
         m3 ← get m 3;
         let y := m3 / (lit 2 * x) in
         m6 ← get m 6;
         let z := m6 / (lit 2 * x) in
         mret (x, y, z)
       else if (m4 >=? m0) && (m4 >=? m8) then
         m4 ← get m 4;
         let y := Math_sqrt ((m4 + lit 1) / lit 2) in
         m3 ← get m 3;
         let x := m3 / (lit 2 * y) in
         m7 ← get m 7;
         let z := m7 / (lit 2 * y) in
         mret (x, y, z)
       else
         m8 ← get m 8;
         let z := Math_sqrt ((m8 + lit 1) / lit 2) in
         m6 ← get m 6;
         let x := m6 / (lit 2 * z) in
         m7 ← get m 7;
         let y := m7 / (lit 2 * z) in
         mret (x, y, z)
     else
       let s := lit 2 * Math_sin angle in
       m5 ← get m 5; m7 ← get m 7;
       let x := (m5 - m7) / s in
       m6 ← get m 6; m2 ← get m 2;
       let y := (m6 - m2) / s in
       m1 ← get m 1; m3 ← get m 3;
       let z := (m1 - m3) / s in
       mret (x, y, z));
  let '(x, y, z) := xyz in
  set out 0 x;;
  set out 1 y;;
  set out 2 z;;
  (if String.eqb degOrRad "deg" then
     set out 3 (toDegree angle)
   else if String.eqb degOrRad "rad" then
     set out 3 angle
   else throw (InvalidUnit "matrixToAxisAngle"));;
  mret out.

(** ** main.js: the caller's check on the axis *)

(** [getAxisAngleInputs], after the four fields have been parsed to the
    numbers [x], [y], [z] and [angle] (parsing is the form's business). *)
Definition getAxisAngleInputs (x y z angle : num)
  : M (num * num * num * num) :=
  if (x === lit 0) && (y === lit 0) && (z === lit 0)
  then throw InvalidAxis
  else mret (x, y, z, angle).

End Engine.

(** ** Real numbers as JavaScript numbers *)

Local Open Scope R_scope.

Definition Rltb (x y : R) : bool := if Rlt_dec x y then true else false.
Definition Rgeb (x y : R) : bool := if Rge_dec x y then true else false.
Definition Reqb (x y : R) : bool := if Req_dec_T x y then true else false.

(** [Math.sign]. *)
Definition Rsign (x : R) : R :=
  if Rlt_dec 0 x then 1 else if Rlt_dec x 0 then -1 else 0.

(** [Math.atan2(y, x)]: the angle of the point [(x, y)], in (-PI, PI]. *)
Definition Ratan2 (y x : R) : R :=
  if Rlt_dec 0 x then atan (y / x)
  else if Rlt_dec x 0 then
    if Rle_dec 0 y then atan (y / x) + PI else atan (y / x) - PI
  else if Rlt_dec 0 y then PI / 2
  else if Rlt_dec y 0 then - (PI / 2)
  else 0.

(** The decimal literal [m]e[e]. *)
Definition Rdec (m e : Z) : R :=
  match e with
  | Z0 => IZR m
  | Zpos p => IZR m * IZR (Z.pow_pos 10 p)
  | Zneg p => IZR m / IZR (Z.pow_pos 10 p)
  end.

(** The exact arithmetic: no rounding ([fround] is the identity), and no
    NaN or infinity, so the instance says nothing about a quotient by zero,
    a square root of a negative number or an arcsine or arccosine outside
    [-1, 1]; the properties below are proved on paths where none occurs. *)
#[global] Instance RNumber : Number := {|
  num := R;
  dec := Rdec;
  Math_PI := PI;
  add := Rplus;
  sub := Rminus;
  mul := Rmult;
  div := Rdiv;
  ltb := Rltb;
  gtb := fun x y => Rltb y x;
  geb := Rgeb;
  eqb := Reqb;
  Math_sqrt := sqrt;
  Math_sin := sin;
  Math_cos := cos;
  Math_asin := asin;
  Math_acos := acos;
  Math_atan2 := Ratan2;
  Math_abs := Rabs;
  Math_sign := Rsign;
  Math_min := Rmin;
  Math_max := Rmax;
  fround := fun x => x
|}.

Local Close Scope R_scope.

(** ** The values the routines compute *)

(** The definitions of this part name, as plain functions on numbers, what
    the programs above write and return; the lemmas [*_run] further down
    prove, by running the programs, that they do. *)
Section Values.
Context `{N : Number}.
Local Open Scope js_scope.

(** An array of kind [k] holding the numbers [l]. *)
Definition vec (k : kind) (l : list num) : array := Arr k (Some <$> l).

(** What [a[i] = v] leaves in an array of kind [k]. *)
Definition stored (k : kind) (v : num) : num :=
  match k with Float32Array => fround v | JSArray => v end.

(** The factor [quat.normalize] multiplies with, and [vec3.normalize]'s. *)
Definition scale4 (x y z w : num) : num :=
  let len := x * x + y * y + z * z + w * w in
  if len >? lit 0 then lit 1 / Math_sqrt len else len.

Definition scale3 (x y z : num) : num :=
  let len := x * x + y * y + z * z in
  if len >? lit 0 then lit 1 / Math_sqrt len else len.

(** The contents of a quaternion of kind [k] after [quat.normalize(q, q)]. *)
Definition normalized (k : kind) (q : list num) : list num :=
  match q with
  | [x; y; z; w] =>
      [stored k (x * scale4 x y z w); stored k (y * scale4 x y z w);
       stored k (z * scale4 x y z w); stored k (w * scale4 x y z w)]
  | _ => q
  end.

(** The contents of a vector of kind [k] after [vec3.normalize(a, a)]. *)
Definition normalized3 (k : kind) (a : list num) : list num :=
  match a with
  | [x; y; z] =>
      [stored k (x * scale3 x y z); stored k (y * scale3 x y z);
       stored k (z * scale3 x y z)]
  | _ => a
  end.

(** The identity matrix as [mat3.create] leaves it. *)
Definition identity3 : list num :=
  [fround (lit 1); lit 0; lit 0;
   lit 0; fround (lit 1); lit 0;
   lit 0; lit 0; fround (lit 1)].

(** [quat.getAxisAngle]: the angle it returns for a quaternion whose last
    component is [w], and the axis it writes. *)
Definition axisAngle_angle (w : num) : num := Math_acos w * lit 2.

Definition axisAngle_axis (x y z w : num) : num * num * num :=
  let s := Math_sin (axisAngle_angle w / lit 2) in
  if s >? EPSILON then (x / s, y / s, z / s) else (lit 1, lit 0, lit 0).

(** [quat.setAxisAngle]: the quaternion of the rotation by [rad] about the
    axis [(a0, a1, a2)]. *)
Definition axisAngle_quat (axis : list num) (rad : num) : list num :=
  match axis with
  | [a0; a1; a2] =>
      let half := rad * dec 5 (-1) in
      [Math_sin half * a0; Math_sin half * a1; Math_sin half * a2;
       Math_cos half]
  | _ => []
  end.

(** [quat.fromEuler] for the order ["zyx"], angles in degrees. *)
Definition euler_quat (x y z : num) : list num :=
  let halfToRad := Math_PI / lit 360 in
  let sx := Math_sin (x * halfToRad) in
  let cx := Math_cos (x * halfToRad) in
  let sy := Math_sin (y * halfToRad) in
  let cy := Math_cos (y * halfToRad) in
  let sz := Math_sin (z * halfToRad) in
  let cz := Math_cos (z * halfToRad) in
  [sx * cy * cz - cx * sy * sz;
   cx * sy * cz + sx * cy * sz;
   cx * cy * sz - sx * sy * cz;
   cx * cy * cz + sx * sy * sz].

(** [mat3.fromQuat]: the matrix of a quaternion, column-major. *)
Definition quat_matrix (q : list num) : list num :=
  match q with
  | [x; y; z; w] =>
      let x2 := x + x in
      let y2 := y + y in
      let z2 := z + z in
      [lit 1 - y * y2 - z * z2; y * x2 + w * z2; z * x2 - w * y2;
       y * x2 - w * z2; lit 1 - x * x2 - z * z2; z * y2 + w * x2;
       z * x2 + w * y2; z * y2 - w * x2; lit 1 - x * x2 - y * y2]
  | _ => []
  end.

(** The two recognized unit selectors, and the value written for an angle
    of [a] radians under a recognized selector. *)
Definition valid_unit (u : string) : Prop := u = "deg" \/ u = "rad".

Definition in_unit (u : string) (a : num) : num :=
  if String.eqb u "deg" then toDegree a else a.

Definition euler_alpha (x y z w : num) : num :=
  Math_atan2 (lit 2 * (w * x + y * z)) (lit 1 - lit 2 * (x * x + y * y)).

Definition euler_sinp (x y z w : num) : num := lit 2 * (w * y - z * x).

Definition euler_beta (x y z w : num) : num :=
  let sinp := euler_sinp x y z w in
  if Math_abs sinp >=? lit 1
  then Math_sign sinp * (Math_PI / lit 2)
  else Math_asin sinp.

Definition euler_gamma (x y z w : num) : num :=
  Math_atan2 (lit 2 * (w * z + x * y)) (lit 1 - lit 2 * (y * y + z * z)).

(** What [quat.getAxisAngle(out, q)] leaves in [out] for the normalized
    quaternion [nq]: the axis in [out[0..2]], and [out[3]] as it was. *)
Definition axis_written (ko : kind) (nq : list num) (o3 : num) : list num :=
  match nq with
  | [x; y; z; w] =>
      let '(ax, ay, az) := axisAngle_axis x y z w in
      [stored ko ax; stored ko ay; stored ko az; o3]
  | _ => []
  end.

Definition angle_of (nq : list num) : num :=
  match nq with
  | [_; _; _; w] => axisAngle_angle w
  | _ => lit 0
  end.

(** The guard [q[0] === q[1] && q[1] === q[2] && q[2] === 0]. *)
Definition zero_xyz (x y z : num) : bool :=
  (x === y) && (y === z) && (z === lit 0).

(** The angle in radians that is handed to [quat.setAxisAngle]. *)
Definition to_radians (u : string) (a : num) : num :=
  if String.eqb u "deg" then toRadian a else a.

(** The angle in degrees that is handed to [quat.fromEuler]. *)
Definition to_degrees (u : string) (a : num) : num :=
  if String.eqb u "deg" then a else toDegree a.

Definition matrix_angle (m : list num) : num :=
  match m with
  | [m0; _; _; _; m4; _; _; _; m8] =>
      Math_acos
        (Math_min (Math_max ((m0 + m4 + m8 - lit 1) / lit 2) (lit (-1)))
                  (lit 1))
  | _ => lit 0
  end.

Definition matrix_axis (m : list num) : num * num * num :=
  match m with
  | [m0; m1; m2; m3; m4; m5; m6; m7; m8] =>
      let angle := matrix_angle m in
      if Math_abs angle <? dec 1 (-6) then (lit 1, lit 0, lit 0)
      else if Math_abs (Math_PI - angle) <? dec 1 (-6) then
        if (m0 >=? m4) && (m0 >=? m8) then
          let x := Math_sqrt ((m0 + lit 1) / lit 2) in
          (x, m3 / (lit 2 * x), m6 / (lit 2 * x))
        else if (m4 >=? m0) && (m4 >=? m8) then
          let y := Math_sqrt ((m4 + lit 1) / lit 2) in
          (m3 / (lit 2 * y), y, m7 / (lit 2 * y))
        else
          let z := Math_sqrt ((m8 + lit 1) / lit 2) in
          (m6 / (lit 2 * z), m7 / (lit 2 * z), z)
      else
        let s := lit 2 * Math_sin angle in
        ((m5 - m7) / s, (m6 - m2) / s, (m1 - m3) / s)
  | _ => (lit 0, lit 0, lit 0)
  end.

End Values.

(** ** Vocabulary of the properties over the reals *)

(** Four locations, for the stores the theorems are instantiated at. *)
Abbreviation loc_q := 1%positive.
Abbreviation loc_out := 2%positive.
Abbreviation loc_m := 3%positive.
Abbreviation loc_euler := 4%positive.

Section RealValues.
Local Open Scope R_scope.

(** The squared norm of a quaternion. *)
Definition norm2 (x y z w : R) : R := x * x + y * y + z * z + w * w.

(** The standard closed form of the rotation matrix of a unit quaternion,
    column by column. *)
Definition rotation_matrix (x y z w : R) : list R :=
  [1 - 2 * (y * y + z * z); 2 * (x * y + w * z); 2 * (x * z - w * y);
   2 * (x * y - w * z); 1 - 2 * (x * x + z * z); 2 * (y * z + w * x);
   2 * (x * z + w * y); 2 * (y * z - w * x); 1 - 2 * (x * x + y * y)].

(** [clamp(v, lo, hi)] as the spec writes it. *)
Definition clamp (v lo hi : R) : R := Rmin (Rmax v lo) hi.

(** The matrix of the half turn about (0,1,0): diag(-1, 1, -1). *)
Definition half_turn_Y : list R := [-1; 0; 0; 0; 1; 0; 0; 0; -1].



(** A store with a quaternion [qv] at 1, a four-element output vector at 2,
    the matrix of the half turn about Y (a plain array, as the form builds
    it) at 3 and a three-element output vector at 4. *)
Definition sample_store (qv : list R) : store :=
  <[loc_q := vec (N := RNumber) Float32Array qv]>
    (<[loc_out := vec Float32Array [0; 0; 0; 7]]>
       (<[loc_m := vec JSArray half_turn_Y]>
          (<[loc_euler := vec Float32Array [0; 0; 0]]> ∅))).

End RealValues.

(** ** More of gl-matrix, for the rest of the code *)

Section MoreLibrary.
Context `{N : Number}.
Local Open Scope js_scope.

(** Unary minus, as the product with [-1] (exact on IEEE doubles), and
    [a <= b], which JavaScript evaluates as [b >= a]. *)
Definition neg (x : num) : num := lit (-1) * x.

Definition leb (a b : num) : bool := b >=? a.

(** Modelled from the spec: [quat.fromValues] and [mat3.fromValues] are not
    under src/; they allocate a fresh [Float32Array] and fill it with their
    arguments. *)
Definition quat_fromValues (x y z w : num) : M loc :=
  out ← new_array 4;
  set out 0 x;;
  set out 1 y;;
  set out 2 z;;
  set out 3 w;;
  mret out.

Definition mat3_fromValues (m00 m01 m02 m10 m11 m12 m20 m21 m22 : num)
  : M loc :=
  out ← new_array 9;
  set out 0 m00;;
  set out 1 m01;;
  set out 2 m02;;
  set out 3 m10;;
  set out 4 m11;;
  set out 5 m12;;
  set out 6 m20;;
  set out 7 m21;;
  set out 8 m22;;
  mret out.

(** Modelled from the spec: [quat.fromMat3] is not under src/. "The
    standard matrix→quaternion closed-form extraction": when the trace is
    positive the scalar part comes from the trace, otherwise the largest
    diagonal entry [m[i*3+i]] is the pivot and the two other indices are
    [j = (i+1) % 3] and [k = (i+2) % 3]. *)
Definition quat_fromMat3 (out m : loc) : M loc :=
  m0 ← get m 0; m4 ← get m 4; m8 ← get m 8;
  let fTrace := m0 + m4 + m8 in
  if fTrace >? lit 0 then
    let fRoot := Math_sqrt (fTrace + lit 1) in
    set out 3 (dec 5 (-1) * fRoot);;
    let fRoot := dec 5 (-1) / fRoot in
    m5 ← get m 5; m7 ← get m 7; set out 0 ((m5 - m7) * fRoot);;
    m6 ← get m 6; m2 ← get m 2; set out 1 ((m6 - m2) * fRoot);;
    m1 ← get m 1; m3 ← get m 3; set out 2 ((m1 - m3) * fRoot);;
    mret out
  else
    let i := 0%nat in
    m4 ← get m 4; m0 ← get m 0;
    let i := if m4 >? m0 then 1%nat else i in
    m8 ← get m 8; mii ← get m (i * 3 + i);
    let i := if m8 >? mii then 2%nat else i in
    let j := ((i + 1) mod 3)%nat in
    let k := ((i + 2) mod 3)%nat in
    mii ← get m (i * 3 + i); mjj ← get m (j * 3 + j); mkk ← get m (k * 3 + k);
    let fRoot := Math_sqrt (mii - mjj - mkk + lit 1) in
    set out i (dec 5 (-1) * fRoot);;
    let fRoot := dec 5 (-1) / fRoot in
    mjk ← get m (j * 3 + k); mkj ← get m (k * 3 + j);
    set out 3 ((mjk - mkj) * fRoot);;
    mji ← get m (j * 3 + i); mij ← get m (i * 3 + j);
    set out j ((mji + mij) * fRoot);;
    mki ← get m (k * 3 + i); mik ← get m (i * 3 + k);
    set out k ((mki + mik) * fRoot);;
    mret out.

(** Modelled from the spec: [mat3.transpose], [mat3.multiply],
    [mat3.determinant] and [mat3.equals] are not under src/. They are the
    textbook operations on column-major 3×3 matrices; [transpose] swaps in
    place when [out] is [a] itself, and [equals] compares entry by entry
    within [EPSILON] relative to the larger of 1 and the two magnitudes. *)
Definition mat3_transpose (out a : loc) : M loc :=
  if Pos.eqb out a then
    a01 ← get a 1; a02 ← get a 2; a12 ← get a 5;
    a3 ← get a 3; set out 1 a3;;
    a6 ← get a 6; set out 2 a6;;
    set out 3 a01;;
    a7 ← get a 7; set out 5 a7;;
    set out 6 a02;;
    set out 7 a12;;
    mret out
  else
    a0 ← get a 0; set out 0 a0;;
    a3 ← get a 3; set out 1 a3;;
    a6 ← get a 6; set out 2 a6;;
    a1 ← get a 1; set out 3 a1;;
    a4 ← get a 4; set out 4 a4;;
    a7 ← get a 7; set out 5 a7;;
    a2 ← get a 2; set out 6 a2;;
    a5 ← get a 5; set out 7 a5;;
    a8 ← get a 8; set out 8 a8;;
    mret out.

Definition mat3_multiply (out a b : loc) : M loc :=
  a00 ← get a 0; a01 ← get a 1; a02 ← get a 2;
  a10 ← get a 3; a11 ← get a 4; a12 ← get a 5;
  a20 ← get a 6; a21 ← get a 7; a22 ← get a 8;
  b00 ← get b 0; b01 ← get b 1; b02 ← get b 2;
  b10 ← get b 3; b11 ← get b 4; b12 ← get b 5;
  b20 ← get b 6; b21 ← get b 7; b22 ← get b 8;
  set out 0 (b00 * a00 + b01 * a10 + b02 * a20);;
  set out 1 (b00 * a01 + b01 * a11 + b02 * a21);;
  set out 2 (b00 * a02 + b01 * a12 + b02 * a22);;
  set out 3 (b10 * a00 + b11 * a10 + b12 * a20);;
  set out 4 (b10 * a01 + b11 * a11 + b12 * a21);;
  set out 5 (b10 * a02 + b11 * a12 + b12 * a22);;
  set out 6 (b20 * a00 + b21 * a10 + b22 * a20);;
  set out 7 (b20 * a01 + b21 * a11 + b22 * a21);;
  set out 8 (b20 * a02 + b21 * a12 + b22 * a22);;
  mret out.

Definition mat3_determinant (a : loc) : M num :=
  a00 ← get a 0; a01 ← get a 1; a02 ← get a 2;
  a10 ← get a 3; a11 ← get a 4; a12 ← get a 5;
  a20 ← get a 6; a21 ← get a 7; a22 ← get a 8;
  mret (a00 * (a22 * a11 - a12 * a21) +
        a01 * (neg a22 * a10 + a12 * a20) +
        a02 * (a21 * a10 - a11 * a20)).

(** One conjunct of [mat3.equals]. *)
Definition near (a b : num) : bool :=
  leb (Math_abs (a - b))
      (EPSILON * Math_max (Math_max (lit 1) (Math_abs a)) (Math_abs b)).

Definition mat3_equals (a b : loc) : M bool :=
  a0 ← get a 0; a1 ← get a 1; a2 ← get a 2;
  a3 ← get a 3; a4 ← get a 4; a5 ← get a 5;
  a6 ← get a 6; a7 ← get a 7; a8 ← get a 8;
  b0 ← get b 0; b1 ← get b 1; b2 ← get b 2;
  b3 ← get b 3; b4 ← get b 4; b5 ← get b 5;
  b6 ← get b 6; b7 ← get b 7; b8 ← get b 8;
  mret (near a0 b0 && near a1 b1 && near a2 b2 &&
        near a3 b3 && near a4 b4 && near a5 b5 &&
        near a6 b6 && near a7 b7 && near a8 b8).

End MoreLibrary.

(** ** conversion.js: the function the claims leave out *)

Section MoreEngine.
Context `{N : Number}.
Local Open Scope js_scope.

Definition matrixToQuaternion (m : loc) : M loc :=
  quatOut ← quat_create;
  quat_fromMat3 quatOut m;;
  quat_normalize quatOut quatOut;;
  mret quatOut.

End MoreEngine.

(** ** main.js and the renderer: the helpers around the engine *)

(** The errors these helpers raise with [throw new Error(...)], returned
    here as values: ["Invalid quaternion: " + e.message] (wrapping a caught
    error [e]), ["Invalid rotation matrix"], and ["getOrbitBasis: upVec must
    be a unit axis vector"]. *)
Inductive ui_error :=
| InvalidQuaternion (e : error)
| InvalidMatrix
| NotUnitAxis.


Section Helpers.
Context `{N : Number}.
Local Open Scope js_scope.

(** [try { body } catch (e) { handler }]. *)
Definition try_catch {A} (body : M A) (handler : error -> M A) : M A :=
  fun s =>
    match body s with
    | (s', Throw e) => handler e s'
    | r => r
    end.

(** [getQuaternionFromInputs], after the four fields have been parsed. *)
Definition getQuaternionFromInputs (qx qy qz qw : num)
  : M (ui_error + loc) :=
  q ← quat_fromValues qx qy qz qw;
  try_catch
    (quat_normalize q q;; mret (inr q))
    (fun e => mret (inl (InvalidQuaternion e))).

Definition isValidRotationMatrix (r : loc) : M bool :=
  identity ← mat3_create;
  rt ← mat3_create;
  mat3_transpose rt r;;
  result ← mat3_create;
  mat3_multiply result rt r;;
  det ← mat3_determinant r;
  same ← mat3_equals result identity;
  if negb same || (det <? dec 999 (-3)) || (det >? dec 1001 (-3))
  then mret false
  else mret true.

(** [[]], and [a.push(v)] on a plain array. *)
Definition new_js_array : M loc :=
  fun s =>
    let l := fresh (dom s) in (<[l := Arr JSArray []]> s, Ok l).

Definition push (a : loc) (v : num) : M unit :=
  fun s =>
    match s !! a with
    | Some arr => (<[a := store_elem arr (length (elems arr)) v]> s, Ok tt)
    | None => (s, Stuck)
    end.

(** [for (let i = 0; i < n; ++i) body]. *)
Definition for_range (n : nat) (body : nat -> M unit) : M unit :=
  foldr (fun i rest => body i;; rest) (mret tt) (seq 0 n).

(** [getMatrixFromInputs]; [field i j] is the parsed value of the input
    [m{i}{j}], row [i] and column [j]. *)
Definition getMatrixFromInputs (field : nat -> nat -> num)
  : M (ui_error + loc) :=
  m ← new_js_array;
  for_range 3 (fun j => for_range 3 (fun i => push m (field i j)));;
  e0 ← get m 0; e1 ← get m 1; e2 ← get m 2;
  e3 ← get m 3; e4 ← get m 4; e5 ← get m 5;
  e6 ← get m 6; e7 ← get m 7; e8 ← get m 8;
  rot ← mat3_fromValues e0 e1 e2 e3 e4 e5 e6 e7 e8;
  valid ← isValidRotationMatrix rot;
  if negb valid then mret (inl InvalidMatrix) else mret (inr m).


End Helpers.

(** ** The values these routines compute *)

Section MoreValues.
Context `{N : Number}.
Local Open Scope js_scope.

(** [quat.fromMat3]: the four components it writes for the column-major
    matrix [m], by branch: positive trace, then pivot 0, 1 or 2. *)
Definition fromMat3_quat (m : list num) : list num :=
  match m with
  | [m0; m1; m2; m3; m4; m5; m6; m7; m8] =>
      let half := dec 5 (-1) in
      if m0 + m4 + m8 >? lit 0 then
        let fRoot := Math_sqrt (m0 + m4 + m8 + lit 1) in
        [(m5 - m7) * (half / fRoot); (m6 - m2) * (half / fRoot);
         (m1 - m3) * (half / fRoot); half * fRoot]
      else
        let pivot0 :=
          let fRoot := Math_sqrt (m0 - m4 - m8 + lit 1) in
          [half * fRoot; (m3 + m1) * (half / fRoot);
           (m6 + m2) * (half / fRoot); (m5 - m7) * (half / fRoot)] in
        let pivot1 :=
          let fRoot := Math_sqrt (m4 - m8 - m0 + lit 1) in
          [(m1 + m3) * (half / fRoot); half * fRoot;
           (m7 + m5) * (half / fRoot); (m6 - m2) * (half / fRoot)] in
        let pivot2 :=
          let fRoot := Math_sqrt (m8 - m0 - m4 + lit 1) in
          [(m2 + m6) * (half / fRoot); (m5 + m7) * (half / fRoot);
           half * fRoot; (m1 - m3) * (half / fRoot)] in
        if m4 >? m0
        then (if m8 >? m4 then pivot2 else pivot1)
        else (if m8 >? m0 then pivot2 else pivot0)
  | _ => []
  end.

(** [mat3.transpose], [mat3.multiply], [mat3.determinant] and
    [mat3.equals] on the contents of their arguments. *)
Definition transposed (a : list num) : list num :=
  match a with
  | [a0; a1; a2; a3; a4; a5; a6; a7; a8] =>
      [a0; a3; a6; a1; a4; a7; a2; a5; a8]
  | _ => []
  end.

Definition product (a b : list num) : list num :=
  match a, b with
  | [a00; a01; a02; a10; a11; a12; a20; a21; a22],
    [b00; b01; b02; b10; b11; b12; b20; b21; b22] =>
      [b00 * a00 + b01 * a10 + b02 * a20;
       b00 * a01 + b01 * a11 + b02 * a21;
       b00 * a02 + b01 * a12 + b02 * a22;
       b10 * a00 + b11 * a10 + b12 * a20;
       b10 * a01 + b11 * a11 + b12 * a21;
       b10 * a02 + b11 * a12 + b12 * a22;
       b20 * a00 + b21 * a10 + b22 * a20;
       b20 * a01 + b21 * a11 + b22 * a21;
       b20 * a02 + b21 * a12 + b22 * a22]
  | _, _ => []
  end.

Definition determinant (a : list num) : num :=
  match a with
  | [a00; a01; a02; a10; a11; a12; a20; a21; a22] =>
      a00 * (a22 * a11 - a12 * a21) +
      a01 * (neg a22 * a10 + a12 * a20) +
      a02 * (a21 * a10 - a11 * a20)
  | _ => lit 0
  end.

Definition all_near (a b : list num) : bool :=
  match a, b with
  | [a0; a1; a2; a3; a4; a5; a6; a7; a8],
    [b0; b1; b2; b3; b4; b5; b6; b7; b8] =>
      near a0 b0 && near a1 b1 && near a2 b2 &&
      near a3 b3 && near a4 b4 && near a5 b5 &&
      near a6 b6 && near a7 b7 && near a8 b8
  | _, _ => false
  end.

(** The parsed fields in the order the two loops push them: column by
    column. *)
Definition column_major (field : nat -> nat -> num) : list num :=
  [field 0 0; field 1 0; field 2 0;
   field 0 1; field 1 1; field 2 1;
   field 0 2; field 1 2; field 2 2]%nat.

(** The verdict of [isValidRotationMatrix] on a matrix with contents [r];
    the transpose and the product live in [Float32Array]s. *)
Definition valid_rotation (r : list num) : bool :=
  let rt := stored Float32Array <$> transposed r in
  let result := stored Float32Array <$> product rt r in
  let det := determinant r in
  negb (negb (all_near result identity3)
        || (det <? dec 999 (-3)) || (det >? dec 1001 (-3))).

End MoreValues.

(** ** Vocabulary of the additional properties over the reals *)

Section MoreRealValues.
Local Open Scope R_scope.

(** The determinant of a column-major 3×3 matrix, and the products of its
    columns with each other (the matrix of [transpose(M) * M]). *)
Definition det3 (m : list R) : R :=
  match m with
  | [m0; m1; m2; m3; m4; m5; m6; m7; m8] =>
      m0 * (m4 * m8 - m5 * m7) - m3 * (m1 * m8 - m2 * m7)
      + m6 * (m1 * m5 - m2 * m4)
  | _ => 0
  end.

Definition gram (m : list R) : list R :=
  match m with
  | [m0; m1; m2; m3; m4; m5; m6; m7; m8] =>
      [m0 * m0 + m1 * m1 + m2 * m2; m0 * m3 + m1 * m4 + m2 * m5;
       m0 * m6 + m1 * m7 + m2 * m8;
       m3 * m0 + m4 * m1 + m5 * m2; m3 * m3 + m4 * m4 + m5 * m5;
       m3 * m6 + m4 * m7 + m5 * m8;
       m6 * m0 + m7 * m1 + m8 * m2; m6 * m3 + m7 * m4 + m8 * m5;
       m6 * m6 + m7 * m7 + m8 * m8]
  | _ => []
  end.

(** A rotation matrix: orthonormal columns and determinant 1. *)
Definition is_rotation (m : list R) : Prop :=
  gram m = [1; 0; 0; 0; 1; 0; 0; 0; 1] /\ det3 m = 1.


(** A store like [sample_store], with the quaternion [(x, y, z, w)] at 1
    and its matrix, as a plain array, at 3. *)
Definition rotation_store (x y z w : R) : store :=
  <[loc_q := vec (N := RNumber) Float32Array [x; y; z; w]]>
    (<[loc_out := vec Float32Array [0; 0; 0; 7]]>
       (<[loc_m := vec JSArray (rotation_matrix x y z w)]>
          (<[loc_euler := vec Float32Array [0; 0; 0]]> ∅))).

End MoreRealValues.

(** ** Running programs on a store *)

Section Run.
Context `{N : Number}.

Lemma run_bind {A B} (m : M A) (k : A -> M B) s :
  (m ≫= k) s =
  match m s with
  | (s', Ok a) => k a s'
  | (s', Throw e) => (s', Throw e)
  | (s', Stuck) => (s', Stuck)
  end.
Proof. reflexivity. Qed.

Lemma run_assoc {A B C} (m : M A) (f : A -> M B) (g : B -> M C) s :
  ((m ≫= f) ≫= g) s = (m ≫= fun x => f x ≫= g) s.
Proof.
  rewrite !run_bind. destruct (m s) as [s' [a|e|]]; reflexivity.
Qed.

Lemma run_get s a arr i v :
  s !! a = Some arr -> elems arr !! i = Some (Some v) ->
  get a i s = (s, Ok v).
Proof. intros Ha Hi. unfold get. rewrite Ha, Hi. reflexivity. Qed.

Lemma run_set s a arr i v :
  s !! a = Some arr ->
  set a i v s = (<[a := store_elem arr i v]> s, Ok tt).
Proof. intros Ha. unfold set. rewrite Ha. reflexivity. Qed.

Lemma run_ret {A} (a : A) s : ret a s = (s, Ok a).
Proof. reflexivity. Qed.

Lemma run_mret {A} (a : A) s : (mret a : M A) s = (s, Ok a).
Proof. reflexivity. Qed.

Lemma run_strict_eq (e1 e2 : M num) s a b :
  e1 s = (s, Ok a) -> e2 s = (s, Ok b) ->
  strict_eq e1 e2 s = (s, Ok (eqb a b)).
Proof. intros H1 H2. unfold strict_eq, bind. rewrite H1, H2. reflexivity. Qed.

Lemma run_andM (c1 c2 : M bool) s b1 b2 :
  c1 s = (s, Ok b1) -> c2 s = (s, Ok b2) ->
  andM c1 c2 s = (s, Ok (b1 && b2)).
Proof.
  intros H1 H2. unfold andM, bind. rewrite H1.
  destruct b1; [ rewrite H2 | ]; reflexivity.
Qed.

Lemma store_elem_vec k l i v :
  (i < length l)%nat ->
  store_elem (vec k l) i v = vec k (list_insert i (stored k v) l).
Proof.
  intros Hi. change (list_insert i (stored k v) l) with (<[i := stored k v]> l).
  unfold store_elem, vec. simpl.
  destruct k; simpl.
  - rewrite length_fmap. apply Nat.ltb_lt in Hi. rewrite Hi.
    f_equal. symmetry. apply list_fmap_insert.
  - f_equal. symmetry. apply list_fmap_insert.
Qed.

End Run.

(** [lookup] finds what a store built from insertions holds at a location;
    [step] runs the next statement of a program, a read or a write of an
    array whose contents the context knows. *)
Ltac lookup :=
  first [ eassumption
        | rewrite lookup_insert_eq; reflexivity
        | rewrite lookup_insert_ne by congruence; lookup ].

Ltac step :=
  rewrite ?run_assoc;
  rewrite run_bind;
  first [ erewrite run_get by (first [lookup | reflexivity])
        | erewrite run_set by lookup;
          rewrite store_elem_vec by (simpl; lia);
          rewrite ?insert_insert_eq
        | rewrite run_mret ];
  cbn [list_insert].

Ltac steps := repeat step.

(** ** What the gl-matrix routines compute *)

Section Runs.
Context `{N : Number}.
Local Open Scope js_scope.

Lemma quat_normalize_run s q k x y z w :
  s !! q = Some (vec k [x; y; z; w]) ->
  quat_normalize q q s = (<[q := vec k (normalized k [x; y; z; w])]> s, Ok q).
Proof.
  intros Hq. unfold quat_normalize. steps. reflexivity.
Qed.

Lemma vec3_normalize_run s a k x y z :
  s !! a = Some (vec k [x; y; z]) ->
  vec3_normalize a a s = (<[a := vec k (normalized3 k [x; y; z])]> s, Ok a).
Proof.
  intros Ha. unfold vec3_normalize. steps. reflexivity.
Qed.

(** Allocation returns a location the store does not hold yet. *)
Lemma fresh_None (s : store) : s !! fresh (dom s) = None.
Proof. apply not_elem_of_dom. apply is_fresh. Qed.

Lemma fresh_ne (s : store) a arr : s !! a = Some arr -> fresh (dom s) <> a.
Proof. intros Ha E. rewrite <- E, fresh_None in Ha. discriminate. Qed.

Lemma new_array_run s n :
  new_array n s =
  (<[fresh (dom s) := vec Float32Array (replicate n (lit 0))]> s,
   Ok (fresh (dom s))).
Proof.
  unfold new_array, vec. rewrite fmap_replicate. reflexivity.
Qed.

Lemma vec3_fromValues_run s x y z :
  vec3_fromValues x y z s =
  (<[fresh (dom s) := vec Float32Array [fround x; fround y; fround z]]> s,
   Ok (fresh (dom s))).
Proof.
  unfold vec3_fromValues. rewrite run_bind, new_array_run. simpl replicate.
  steps. reflexivity.
Qed.

Lemma quat_create_run s :
  quat_create s =
  (<[fresh (dom s) :=
       vec Float32Array [lit 0; lit 0; lit 0; fround (lit 1)]]> s,
   Ok (fresh (dom s))).
Proof.
  unfold quat_create. rewrite run_bind, new_array_run. simpl replicate.
  steps. reflexivity.
Qed.

Lemma mat3_create_run s :
  mat3_create s =
  (<[fresh (dom s) := vec Float32Array identity3]> s, Ok (fresh (dom s))).
Proof.
  unfold mat3_create. rewrite run_bind, new_array_run. simpl replicate.
  steps. reflexivity.
Qed.

Lemma quat_getAxisAngle_run s out q kq ko x y z w o0 o1 o2 o3 :
  s !! q = Some (vec kq [x; y; z; w]) ->
  s !! out = Some (vec ko [o0; o1; o2; o3]) ->
  out <> q ->
  quat_getAxisAngle out q s =
  (let '(ax, ay, az) := axisAngle_axis x y z w in
   <[out := vec ko [stored ko ax; stored ko ay; stored ko az; o3]]> s,
   Ok (axisAngle_angle w)).
Proof.
  intros Hq Hout Hne. unfold quat_getAxisAngle, axisAngle_axis. step.
  fold (axisAngle_angle w).
  destruct (Math_sin (axisAngle_angle w / lit 2) >? EPSILON); steps;
    reflexivity.
Qed.

Lemma quat_setAxisAngle_run s out axis k ka a0 a1 a2 rad o0 o1 o2 o3 :
  s !! axis = Some (vec ka [a0; a1; a2]) ->
  s !! out = Some (vec k [o0; o1; o2; o3]) ->
  out <> axis ->
  quat_setAxisAngle out axis rad s =
  (<[out := vec k (stored k <$> axisAngle_quat [a0; a1; a2] rad)]> s, Ok out).
Proof.
  intros Ha Hout Hne. unfold quat_setAxisAngle. steps. reflexivity.
Qed.

Lemma quat_fromEuler_run s out k x y z o0 o1 o2 o3 :
  s !! out = Some (vec k [o0; o1; o2; o3]) ->
  quat_fromEuler out x y z "zyx" s =
  (<[out := vec k (stored k <$> euler_quat x y z)]> s, Ok out).
Proof.
  intros Hout. unfold quat_fromEuler. rewrite String.eqb_refl.
  steps. reflexivity.
Qed.

Lemma mat3_fromQuat_run s out q k kq x y z w l :
  s !! q = Some (vec kq [x; y; z; w]) ->
  s !! out = Some (vec k l) ->
  length l = 9%nat ->
  out <> q ->
  mat3_fromQuat out q s =
  (<[out := vec k (stored k <$> quat_matrix [x; y; z; w])]> s, Ok out).
Proof.
  intros Hq Hout Hl Hne.
  do 10 (destruct l as [|? l]; try discriminate Hl).
  unfold mat3_fromQuat. steps. reflexivity.
Qed.

(** ** What the conversion functions compute *)

Lemma invalid_unit_eqb u :
  u <> "deg" -> u <> "rad" ->
  String.eqb u "deg" = false /\ String.eqb u "rad" = false.
Proof. intros H1 H2. split; apply String.eqb_neq; assumption. Qed.

(** *** quaternionToEuler *)

Lemma quaternionToEuler_run s out q kq ko x y z w o0 o1 o2 u :
  s !! q = Some (vec kq [x; y; z; w]) ->
  s !! out = Some (vec ko [o0; o1; o2]) ->
  valid_unit u ->
  quaternionToEuler out q u s =
  (<[out := vec ko [stored ko (in_unit u (euler_gamma x y z w));
                    stored ko (in_unit u (euler_beta x y z w));
                    stored ko (in_unit u (euler_alpha x y z w))]]> s,
   Ok out).
Proof.
  intros Hq Hout [-> | ->]; unfold quaternionToEuler, in_unit;
    do 4 step; simpl String.eqb; cbv iota; steps; reflexivity.
Qed.

Lemma quaternionToEuler_invalid s out q kq x y z w u :
  s !! q = Some (vec kq [x; y; z; w]) ->
  u <> "deg" -> u <> "rad" ->
  quaternionToEuler out q u s = (s, Ok out).
Proof.
  intros Hq Hd Hr. destruct (invalid_unit_eqb u Hd Hr) as [Ed Er].
  unfold quaternionToEuler. do 4 step. rewrite Ed, Er. reflexivity.
Qed.

(** *** quaternionToAxisAngle *)

Lemma quaternionToAxisAngle_run s out q kq ko x y z w o0 o1 o2 o3 u :
  s !! q = Some (vec kq [x; y; z; w]) ->
  s !! out = Some (vec ko [o0; o1; o2; o3]) ->
  out <> q ->
  quaternionToAxisAngle out q u s =
  let nq := normalized kq [x; y; z; w] in
  let s1 := <[q := vec kq nq]> s in
  let aw := axis_written ko nq o3 in
  if String.eqb u "deg" || String.eqb u "rad" then
    (<[out := vec ko (list_insert 3 (stored ko (in_unit u (angle_of nq))) aw)]>
       s1, Ok out)
  else (<[out := vec ko aw]> s1, Throw (InvalidUnit "quaternionToAxisAngle")).
Proof.
  intros Hq Hout Hne. unfold quaternionToAxisAngle, in_unit.
  rewrite run_bind, (quat_normalize_run _ _ _ _ _ _ _ Hq).
  cbn [normalized]. rewrite run_bind.
  erewrite quat_getAxisAngle_run; [ | lookup | lookup | assumption ].
  cbn [axis_written angle_of].
  destruct (axisAngle_axis _ _ _ _) as [[ax ay] az].
  destruct (String.eqb u "deg"); [ | destruct (String.eqb u "rad") ];
    cbn [orb]; steps; reflexivity.
Qed.

(** *** quaternionToMatrix *)

Lemma quaternionToMatrix_run s q kq x y z w :
  s !! q = Some (vec kq [x; y; z; w]) ->
  quaternionToMatrix q s =
  let l := fresh (dom s) in
  if zero_xyz x y z then (<[l := vec Float32Array identity3]> s, Ok l)
  else
    let nq := normalized kq [x; y; z; w] in
    (<[l := vec Float32Array (stored Float32Array <$> quat_matrix nq)]>
       (<[q := vec kq nq]> s), Ok l).
Proof.
  intros Hq. unfold quaternionToMatrix. rewrite run_bind.
  erewrite run_andM with (b1 := (x === y) && (y === z)) (b2 := z === lit 0);
    [ | apply run_andM; apply run_strict_eq | apply run_strict_eq ];
    try (eapply run_get; [ exact Hq | reflexivity ]); try apply run_ret.
  fold (zero_xyz x y z). destruct (zero_xyz x y z).
  - apply mat3_create_run.
  - rewrite run_bind, (quat_normalize_run _ _ _ _ _ _ _ Hq).
    rewrite run_bind, mat3_create_run.
    rewrite (dom_insert_lookup_L s q) by (rewrite Hq; eauto).
    pose proof (fresh_ne s q _ Hq) as Hl.
    rewrite run_bind.
    erewrite mat3_fromQuat_run; [ | lookup | lookup | reflexivity | exact Hl ].
    rewrite insert_insert_eq. reflexivity.
Qed.

(** *** axisAngleToQuaternion *)

Lemma axisAngleToQuaternion_run s x y z angle u :
  axisAngleToQuaternion x y z angle u s =
  let axis := normalized3 Float32Array [fround x; fround y; fround z] in
  let s1 := <[fresh (dom s) := vec Float32Array axis]> s in
  let l := fresh (dom s1) in
  if String.eqb u "deg" || String.eqb u "rad" then
    (<[l := vec Float32Array
              (normalized Float32Array
                 (stored Float32Array <$>
                    axisAngle_quat axis (to_radians u angle)))]> s1, Ok l)
  else
    (<[l := vec Float32Array [lit 0; lit 0; lit 0; fround (lit 1)]]> s1,
     Throw (InvalidUnit "axisAngleToQuaternion")).
Proof.
  unfold axisAngleToQuaternion, to_radians.
  rewrite run_bind, vec3_fromValues_run.
  rewrite run_bind. erewrite vec3_normalize_run by lookup.
  rewrite insert_insert_eq.
  set (s1 := <[fresh (dom s) := _]> s).
  assert (Ha : s1 !! fresh (dom s) =
               Some (vec Float32Array
                       (normalized3 Float32Array [fround x; fround y; fround z])))
    by apply lookup_insert_eq.
  pose proof (fresh_ne s1 _ _ Ha) as Hl.
  rewrite run_bind, quat_create_run.
  set (l := fresh (dom s1)) in *.
  cbn [normalized3] in *.
  destruct (String.eqb u "deg"); [ | destruct (String.eqb u "rad") ];
    cbn [orb]; cbv iota.
  - rewrite run_bind.
    erewrite quat_setAxisAngle_run; [ | lookup | lookup | exact Hl ].
    rewrite insert_insert_eq. cbn [axisAngle_quat fmap list_fmap].
    rewrite run_bind. erewrite quat_normalize_run by lookup.
    rewrite insert_insert_eq. reflexivity.
  - rewrite run_bind.
    erewrite quat_setAxisAngle_run; [ | lookup | lookup | exact Hl ].
    rewrite insert_insert_eq. cbn [axisAngle_quat fmap list_fmap].
    rewrite run_bind. erewrite quat_normalize_run by lookup.
    rewrite insert_insert_eq. reflexivity.
  - reflexivity.
Qed.

(** *** eulerToQuaternion *)

Lemma eulerToQuaternion_run s alpha beta gamma u :
  eulerToQuaternion alpha beta gamma u s =
  let l := fresh (dom s) in
  if String.eqb u "deg" || String.eqb u "rad" then
    (<[l := vec Float32Array
              (normalized Float32Array
                 (stored Float32Array <$>
                    euler_quat (to_degrees u gamma) (to_degrees u beta)
                               (to_degrees u alpha)))]> s, Ok l)
  else
    (<[l := vec Float32Array [lit 0; lit 0; lit 0; fround (lit 1)]]> s,
     Throw (InvalidUnit "eulerToQuaternion")).
Proof.
  unfold eulerToQuaternion, to_degrees.
  rewrite run_bind, quat_create_run.
  destruct (String.eqb u "deg"); [ | destruct (String.eqb u "rad") ];
    cbn [orb]; cbv iota.
  - rewrite run_bind. erewrite quat_fromEuler_run by lookup.
    rewrite insert_insert_eq. cbn [euler_quat fmap list_fmap].
    rewrite run_bind. erewrite quat_normalize_run by lookup.
    rewrite insert_insert_eq. reflexivity.
  - rewrite run_bind. erewrite quat_fromEuler_run by lookup.
    rewrite insert_insert_eq. cbn [euler_quat fmap list_fmap].
    rewrite run_bind. erewrite quat_normalize_run by lookup.
    rewrite insert_insert_eq. reflexivity.
  - reflexivity.
Qed.

(** *** matrixToAxisAngle *)

Lemma matrixToAxisAngle_run s out m km ko
      m0 m1 m2 m3 m4 m5 m6 m7 m8 o0 o1 o2 o3 u :
  let ml := [m0; m1; m2; m3; m4; m5; m6; m7; m8] in
  s !! m = Some (vec km ml) ->
  s !! out = Some (vec ko [o0; o1; o2; o3]) ->
  matrixToAxisAngle out m u s =
  let '(x, y, z) := matrix_axis ml in
  let aw := [stored ko x; stored ko y; stored ko z; o3] in
  if String.eqb u "deg" || String.eqb u "rad" then
    (<[out := vec ko (list_insert 3 (stored ko (in_unit u (matrix_angle ml)))
                        aw)]> s, Ok out)
  else (<[out := vec ko aw]> s, Throw (InvalidUnit "matrixToAxisAngle")).
Proof.
  intros ml Hm Hout. subst ml.
  unfold matrixToAxisAngle, matrix_axis, in_unit. do 3 step.
  fold (matrix_angle [m0; m1; m2; m3; m4; m5; m6; m7; m8]).
  set (angle := matrix_angle _).
  rewrite run_bind.
  destruct (Math_abs angle <? dec 1 (-6));
    [ | destruct (Math_abs (Math_PI - angle) <? dec 1 (-6)) ].
  - rewrite run_mret. cbv beta iota.
    destruct (String.eqb u "deg"); [ | destruct (String.eqb u "rad") ];
      cbn [orb]; steps; reflexivity.
  - do 3 step.
    destruct ((m0 >=? m4) && (m0 >=? m8));
      [ | destruct ((m4 >=? m0) && (m4 >=? m8)) ];
      do 3 step; rewrite run_mret; cbv beta iota;
      (destruct (String.eqb u "deg"); [ | destruct (String.eqb u "rad") ]);
      cbn [orb]; steps; reflexivity.
  - do 6 step. rewrite run_mret. cbv beta iota.
    destruct (String.eqb u "deg"); [ | destruct (String.eqb u "rad") ];
      cbn [orb]; steps; reflexivity.
Qed.

End Runs.

(** * Properties that hold for every implementation of the numbers *)

Section Generic.
Context `{N : Number}.
Local Open Scope js_scope.

Lemma valid_unit_eqb u :
  valid_unit u -> String.eqb u "deg" || String.eqb u "rad" = true.
Proof. intros [-> | ->]; reflexivity. Qed.

Lemma invalid_unit_orb u :
  u <> "deg" -> u <> "rad" ->
  String.eqb u "deg" || String.eqb u "rad" = false.
Proof.
  intros Hd Hr. destruct (invalid_unit_eqb u Hd Hr) as [-> ->]. reflexivity.
Qed.

(** The four functions that end their unit test with a [throw]. *)
Lemma siblings_throw_InvalidUnit s out q m kq km ko x y z w
      m0 m1 m2 m3 m4 m5 m6 m7 m8 o0 o1 o2 o3 a b c d u :
  s !! q = Some (vec kq [x; y; z; w]) ->
  s !! m = Some (vec km [m0; m1; m2; m3; m4; m5; m6; m7; m8]) ->
  s !! out = Some (vec ko [o0; o1; o2; o3]) ->
  out <> q ->
  u <> "deg" -> u <> "rad" ->
  (quaternionToAxisAngle out q u s).2 =
    Throw (InvalidUnit "quaternionToAxisAngle") /\
  (axisAngleToQuaternion a b c d u s).2 =
    Throw (InvalidUnit "axisAngleToQuaternion") /\
  (eulerToQuaternion a b c u s).2 = Throw (InvalidUnit "eulerToQuaternion") /\
  (matrixToAxisAngle out m u s).2 = Throw (InvalidUnit "matrixToAxisAngle").
Proof.
  intros Hq Hm Hout Hne Hd Hr. pose proof (invalid_unit_orb u Hd Hr) as E.
  repeat split.
  - erewrite quaternionToAxisAngle_run by eassumption.
    cbv zeta. rewrite E. reflexivity.
  - rewrite axisAngleToQuaternion_run. cbv zeta. rewrite E. reflexivity.
  - rewrite eulerToQuaternion_run. cbv zeta. rewrite E. reflexivity.
  - erewrite matrixToAxisAngle_run by eassumption.
    destruct (matrix_axis _) as [[ax ay] az]. cbv zeta. rewrite E.
    reflexivity.
Qed.

(** C1 (the code where the sentence of the spec fails): on a unit selector
    that is neither ["deg"] nor ["rad"], [quaternionToEuler] throws nothing:
    both unit tests fail, there is no final [else], and the function returns
    [out] with the store as it was, so [out] still holds whatever it held. *)
Theorem quaternionToEuler_unrecognized_unit_returns
        s out q kq x y z w u :
  s !! q = Some (vec kq [x; y; z; w]) ->
  u <> "deg" -> u <> "rad" ->
  quaternionToEuler out q u s = (s, Ok out) /\
  forall fn, (quaternionToEuler out q u s).2 <> Throw (InvalidUnit fn).
Proof.
  intros Hq Hd Hr.
  rewrite (quaternionToEuler_invalid s out q kq x y z w u Hq Hd Hr).
  split; [ reflexivity | intros fn; discriminate ].
Qed.

(** The radian path of [eulerToQuaternion] is the degree path on the
    converted angles, and the degree path calls the builder with the angles
    in the order gamma, beta, alpha. *)
Lemma eulerToQuaternion_rad_as_deg alpha beta gamma s :
  eulerToQuaternion alpha beta gamma "rad" s =
  eulerToQuaternion (toDegree alpha) (toDegree beta) (toDegree gamma) "deg" s.
Proof. reflexivity. Qed.

Lemma eulerToQuaternion_deg_builder alpha beta gamma s :
  eulerToQuaternion alpha beta gamma "deg" s =
  (q ← quat_create;
   quat_fromEuler q gamma beta alpha "zyx";;
   quat_normalize q q;;
   mret q) s.
Proof. reflexivity. Qed.


End Generic.

Section Atomicity.
Context `{N : Number}.
Local Open Scope js_scope.



End Atomicity.

(** * Properties of the values, over the real numbers *)

Section RealFacts.
Local Open Scope R_scope.

Lemma Rltb_true x y : x < y -> Rltb x y = true.
Proof. intros H. unfold Rltb. destruct (Rlt_dec x y); [ reflexivity | contradiction ]. Qed.

Lemma Rltb_false x y : ~ x < y -> Rltb x y = false.
Proof. intros H. unfold Rltb. destruct (Rlt_dec x y); [ contradiction | reflexivity ]. Qed.

Lemma Rgeb_true x y : x >= y -> Rgeb x y = true.
Proof. intros H. unfold Rgeb. destruct (Rge_dec x y); [ reflexivity | contradiction ]. Qed.

Lemma Rgeb_false x y : ~ x >= y -> Rgeb x y = false.
Proof. intros H. unfold Rgeb. destruct (Rge_dec x y); [ contradiction | reflexivity ]. Qed.

Lemma Reqb_true x y : x = y -> Reqb x y = true.
Proof. intros H. unfold Reqb. destruct (Req_dec_T x y); [ reflexivity | contradiction ]. Qed.


Lemma stored_R k (v : R) : stored (N := RNumber) k v = v.
Proof. destruct k; reflexivity. Qed.

Lemma norm2_pos x y z w :
  ~ (x = 0 /\ y = 0 /\ z = 0 /\ w = 0) -> 0 < norm2 x y z w.
Proof.
  intros H. unfold norm2.
  destruct (Req_dec x 0) as [-> | Hx]; [ | nra ].
  destruct (Req_dec y 0) as [-> | Hy]; [ | nra ].
  destruct (Req_dec z 0) as [-> | Hz]; [ | nra ].
  destruct (Req_dec w 0) as [-> | Hw]; [ tauto | nra ].
Qed.

Lemma scale4_R x y z w :
  0 < norm2 x y z w ->
  scale4 (N := RNumber) x y z w = / sqrt (norm2 x y z w).
Proof.
  intros H. unfold scale4, norm2 in *. cbn.
  rewrite Rltb_true by exact H. lra.
Qed.

Lemma normalized_R k x y z w :
  0 < norm2 x y z w ->
  normalized (N := RNumber) k [x; y; z; w] =
  [x / sqrt (norm2 x y z w); y / sqrt (norm2 x y z w);
   z / sqrt (norm2 x y z w); w / sqrt (norm2 x y z w)].
Proof.
  intros H. unfold normalized. rewrite !stored_R, scale4_R by exact H.
  reflexivity.
Qed.

Lemma normalized_R_unit k x y z w :
  norm2 x y z w = 1 ->
  normalized (N := RNumber) k [x; y; z; w] = [x; y; z; w].
Proof.
  intros H. rewrite normalized_R by lra. rewrite H, sqrt_1.
  repeat f_equal; lra.
Qed.

Lemma norm2_normalized x y z w :
  0 < norm2 x y z w ->
  let n := sqrt (norm2 x y z w) in
  norm2 (x / n) (y / n) (z / n) (w / n) = 1.
Proof.
  intros H n. assert (Hn : 0 < n) by (apply sqrt_lt_R0; exact H).
  assert (Hnn : n * n = norm2 x y z w) by (apply sqrt_def; lra).
  unfold norm2 in *. field_simplify_eq; [ nra | lra ].
Qed.

End RealFacts.

(** Equality of two lists of the same length, element by element. *)
(** The type of numbers of [RNumber] is [R]. *)
Ltac reals := cbn [num RNumber] in *.

Ltac as_real :=
  match goal with |- @eq _ ?a ?b => change (@eq R a b) end.

Ltac list_eq tac :=
  repeat (apply (f_equal2 cons); [ as_real; tac | ]); try reflexivity.

Section QuaternionInPlace.
Local Open Scope R_scope.

Lemma zero_xyz_true : zero_xyz (N := RNumber) 0 0 0 = true.
Proof. unfold zero_xyz. cbn. rewrite !Reqb_true; reflexivity. Qed.

Lemma zero_xyz_false x y z :
  ~ (x = 0 /\ y = 0 /\ z = 0) -> zero_xyz (N := RNumber) x y z = false.
Proof.
  intros H. unfold zero_xyz. cbn. unfold Reqb.
  destruct (Req_dec_T x y) as [Exy | ]; [ | reflexivity ].
  destruct (Req_dec_T y z) as [Eyz | ]; [ | reflexivity ].
  destruct (Req_dec_T z 0) as [Ez | ]; [ | reflexivity ].
  exfalso. apply H. repeat split; congruence.
Qed.

Lemma quat_matrix_R (x y z w : R) :
  stored (N := RNumber) Float32Array <$> quat_matrix [x; y; z; w] =
  rotation_matrix x y z w.
Proof.
  unfold quat_matrix, rotation_matrix. cbn. list_eq ltac:(ring).
Qed.

Lemma identity3_R :
  identity3 (N := RNumber) = [1; 0; 0; 0; 1; 0; 0; 0; 1].
Proof. reflexivity. Qed.

(** C8: [quaternionToMatrix] over the reals. When x, y and z are all 0
    (whatever w is) the call returns a fresh identity matrix and the store
    is otherwise as it was, so the quaternion is not normalized; in every
    other case the quaternion is replaced by its normalized form and the
    fresh matrix is the closed form of that normalized quaternion. In both
    cases the call returns a matrix: it never fails. *)
Theorem quaternionToMatrix_cases s q kq (x y z w : R) :
  s !! q = Some (vec (N := RNumber) kq [x; y; z; w]) ->
  exists l, s !! l = None /\
    ((x = 0 /\ y = 0 /\ z = 0) ->
       quaternionToMatrix q s =
         (<[l := vec Float32Array [1; 0; 0; 0; 1; 0; 0; 0; 1]]> s, Ok l) /\
       (<[l := vec Float32Array [1; 0; 0; 0; 1; 0; 0; 0; 1]]> s) !! q =
         Some (vec kq [x; y; z; w])) /\
    (~ (x = 0 /\ y = 0 /\ z = 0) ->
       let n := sqrt (norm2 x y z w) in
       quaternionToMatrix q s =
         (<[l := vec Float32Array
                   (rotation_matrix (x / n) (y / n) (z / n) (w / n))]>
            (<[q := vec kq [x / n; y / n; z / n; w / n]]> s), Ok l)).
Proof.
  intros Hq. exists (fresh (dom s)). split; [ apply fresh_None | ].
  pose proof (fresh_ne s q _ Hq) as Hl.
  rewrite (quaternionToMatrix_run s q kq x y z w Hq). cbv zeta. reals.
  split.
  - intros (-> & -> & ->). rewrite zero_xyz_true, identity3_R.
    split; [ reflexivity | lookup ].
  - intros Hnz. rewrite (zero_xyz_false x y z Hnz).
    assert (Hpos : 0 < norm2 x y z w) by (apply norm2_pos; tauto).
    rewrite (normalized_R kq x y z w Hpos), quat_matrix_R. reflexivity.
Qed.

(** C9: the normalization is done in place. After [quaternionToAxisAngle]
    (recognized unit) on a non-zero quaternion, and after
    [quaternionToMatrix] on a quaternion whose x, y, z are not all 0, the
    caller's array [q] holds the original components divided by the original
    norm, a quaternion of norm 1. *)
Theorem normalization_in_place s out q kq ko (x y z w o0 o1 o2 o3 : R) u :
  s !! q = Some (vec (N := RNumber) kq [x; y; z; w]) ->
  s !! out = Some (vec ko [o0; o1; o2; o3]) ->
  out <> q ->
  valid_unit u ->
  ~ (x = 0 /\ y = 0 /\ z = 0 /\ w = 0) ->
  let n := sqrt (norm2 x y z w) in
  norm2 (x / n) (y / n) (z / n) (w / n) = 1 /\
  (exists s', quaternionToAxisAngle out q u s = (s', Ok out) /\
              s' !! q = Some (vec kq [x / n; y / n; z / n; w / n])) /\
  (~ (x = 0 /\ y = 0 /\ z = 0) ->
   exists s' l, quaternionToMatrix q s = (s', Ok l) /\
                s' !! q = Some (vec kq [x / n; y / n; z / n; w / n])).
Proof.
  intros Hq Hout Hne Hu Hnz n.
  assert (Hpos : 0 < norm2 x y z w) by (apply norm2_pos; exact Hnz).
  split; [ apply norm2_normalized; exact Hpos | ]. split.
  - rewrite (quaternionToAxisAngle_run s out q kq ko x y z w o0 o1 o2 o3 u)
      by assumption.
    cbv zeta. rewrite (valid_unit_eqb u Hu). reals.
    rewrite (normalized_R kq x y z w Hpos).
    eexists. split; [ reflexivity | lookup ].
  - intros Hxyz. pose proof (fresh_ne s q _ Hq) as Hl.
    rewrite (quaternionToMatrix_run s q kq x y z w Hq). cbv zeta. reals.
    rewrite (zero_xyz_false x y z Hxyz), (normalized_R kq x y z w Hpos).
    do 2 eexists. split; [ reflexivity | lookup ].
Qed.

End QuaternionInPlace.


Section QuaternionToEuler.
Local Open Scope R_scope.

Lemma euler_beta_R (x y z w : R) :
  euler_beta (N := RNumber) x y z w = asin (clamp (2 * (w * y - z * x)) (-1) 1).
Proof.
  unfold euler_beta, euler_sinp, clamp. cbn.
  set (sinp := 2 * (w * y - z * x)).
  destruct (Rge_dec (Rabs sinp) 1) as [Hge | Hlt].
  - rewrite Rgeb_true by exact Hge. unfold Rsign.
    destruct (Rlt_dec 0 sinp) as [Hpos | Hnpos].
    + rewrite Rabs_right in Hge by lra.
      rewrite Rmax_left, Rmin_right by (try apply Rmax_case; lra).
      rewrite asin_1. lra.
    + destruct (Rlt_dec sinp 0) as [Hneg | Hnneg].
      * rewrite Rabs_left in Hge by lra.
        rewrite Rmax_right, Rmin_left by lra.
        replace (-1) with (- (1)) by lra. rewrite asin_opp, asin_1. lra.
      * assert (sinp = 0) by lra. rewrite H, Rabs_R0 in Hge. lra.
  - rewrite Rgeb_false by exact Hlt.
    assert (Hb : -1 < sinp < 1).
    { split; [ destruct (Rle_dec sinp (-1)) | destruct (Rle_dec 1 sinp) ];
        try lra; exfalso; apply Hlt.
      - rewrite Rabs_left by lra. lra.
      - rewrite Rabs_right by lra. lra. }
    rewrite Rmax_left, Rmin_left by (try rewrite Rmax_left; lra).
    reflexivity.
Qed.

Lemma in_unit_R u (a : R) :
  in_unit (N := RNumber) u a = if String.eqb u "deg" then a * (180 / PI) else a.
Proof. reflexivity. Qed.


End QuaternionToEuler.

Section GimbalLock.
Local Open Scope R_scope.





End GimbalLock.

Section HalfTurn.
Local Open Scope R_scope.

(** The literal [1e-6]. *)
Lemma dec_1e_6 : dec (Number := RNumber) 1 (-6) = 1 / 1000000.
Proof. cbn. unfold Z.pow_pos. cbn. reflexivity. Qed.

Lemma acos_m1 : acos (-1) = PI.
Proof.
  replace (-1) with (- (1)) by lra. rewrite acos_opp, acos_1. lra.
Qed.

Lemma matrix_angle_half_turn_Y :
  matrix_angle (N := RNumber) half_turn_Y = PI.
Proof.
  unfold matrix_angle, half_turn_Y. cbn.
  replace ((-1 + 1 + -1 - 1) / 2) with (-1) by lra.
  rewrite Rmax_left, Rmin_left by (try rewrite Rmax_left; lra).
  apply acos_m1.
Qed.

Lemma matrix_axis_half_turn_Y :
  matrix_axis (N := RNumber) half_turn_Y = (0, 1, 0).
Proof.
  unfold matrix_axis, half_turn_Y. fold half_turn_Y. cbv zeta.
  rewrite matrix_angle_half_turn_Y, dec_1e_6.
  pose proof PI2_3_2 as Hpi.
  cbn [ltb geb Math_abs Math_PI sub add div mul lit dec Math_sqrt RNumber Rdec].
  rewrite Rltb_false by (rewrite Rabs_right; lra).
  rewrite Rltb_true
    by (replace (PI - PI) with 0 by lra; rewrite Rabs_R0; lra).
  rewrite (Rgeb_false (-1) 1) by lra. cbn [andb].
  rewrite (Rgeb_true 1 (-1)) by lra. cbn [andb].
  replace ((1 + 1) / 2) with 1 by lra. rewrite sqrt_1.
  f_equal; [ f_equal | ]; lra.
Qed.

(** C4: [matrixToAxisAngle] on the half turn about (0,1,0), unit ["rad"].
    The angle computed from the trace is [PI]; it fails the test of the
    near-identity branch and passes the test of the near-180° branch, where
    the pivot is the middle diagonal entry, the largest one; the call writes
    the axis (0, 1, 0) and the angle [PI]. *)
Theorem matrixToAxisAngle_half_turn_Y s out m km ko (o0 o1 o2 o3 : R) :
  s !! m = Some (vec (N := RNumber) km half_turn_Y) ->
  s !! out = Some (vec ko [o0; o1; o2; o3]) ->
  let angle := acos (Rmin (Rmax ((-1 + 1 + -1 - 1) / 2) (-1)) 1) in
  angle = PI /\
  ~ Rabs angle < 1 / 1000000 /\
  Rabs (PI - angle) < 1 / 1000000 /\
  ~ (-1 >= 1 /\ -1 >= -1) /\
  (1 >= -1 /\ 1 >= -1) /\
  matrixToAxisAngle out m "rad" s = (<[out := vec ko [0; 1; 0; PI]]> s, Ok out).
Proof.
  intros Hm Hout angle.
  assert (Ha : angle = PI) by apply matrix_angle_half_turn_Y.
  pose proof PI2_3_2 as Hpi.
  split; [ exact Ha | ]. rewrite Ha.
  split; [ rewrite Rabs_right; lra | ].
  split; [ replace (PI - PI) with 0 by lra; rewrite Rabs_R0; lra | ].
  split; [ lra | ]. split; [ lra | ].
  unfold half_turn_Y in Hm.
  rewrite (matrixToAxisAngle_run s out m km ko _ _ _ _ _ _ _ _ _
             o0 o1 o2 o3 "rad" Hm Hout).
  reals. fold half_turn_Y.
  rewrite matrix_axis_half_turn_Y, matrix_angle_half_turn_Y.
  cbn [String.eqb Ascii.eqb Bool.eqb orb list_insert].
  rewrite !stored_R. reflexivity.
Qed.

End HalfTurn.

(** Unfolding of the arithmetic of [RNumber] into that of [R]. *)
Ltac rsimp :=
  cbn [num dec Math_PI add sub mul div ltb gtb geb eqb Math_sqrt Math_sin
       Math_cos Math_asin Math_acos Math_atan2 Math_abs Math_sign Math_min
       Math_max fround lit RNumber Rdec] in *;
  repeat match goal with
    | |- context [Z.pow_pos 10 ?p] =>
        let v := eval vm_compute in (Z.pow_pos 10 p) in
        change (Z.pow_pos 10 p) with v
    end.

Section RoundTrip.
Local Open Scope R_scope.








End RoundTrip.

Section EulerToQuaternion.
Local Open Scope R_scope.

Lemma euler_quat_unit (x y z : R) :
  exists a b c d,
    stored (N := RNumber) Float32Array <$> euler_quat x y z = [a; b; c; d] /\
    norm2 a b c d = 1.
Proof.
  unfold euler_quat. cbv zeta. cbn [fmap list_fmap]. rewrite !stored_R. rsimp.
  do 4 eexists. split; [ reflexivity | ].
  pose proof (sin2_cos2 (x * (PI / 360))) as Hx.
  pose proof (sin2_cos2 (y * (PI / 360))) as Hy.
  pose proof (sin2_cos2 (z * (PI / 360))) as Hz.
  unfold norm2, Rsqr in *.
  set (sx := sin (x * (PI / 360))) in *. set (cx := cos (x * (PI / 360))) in *.
  set (sy := sin (y * (PI / 360))) in *. set (cy := cos (y * (PI / 360))) in *.
  set (sz := sin (z * (PI / 360))) in *. set (cz := cos (z * (PI / 360))) in *.
  transitivity ((sx * sx + cx * cx) * (sy * sy + cy * cy) * (sz * sz + cz * cz)).
  - ring.
  - rewrite Hx, Hy, Hz. ring.
Qed.

(** C7: the radian path of [eulerToQuaternion]. Under ["rad"] the call is
    the call under ["deg"] on the three angles multiplied by [180 / PI];
    the degree path allocates a quaternion, calls the degree-based builder
    with the angles in the order gamma, beta, alpha and the order ["zyx"],
    and normalizes; over the reals the quaternion returned has norm 1. *)
Theorem eulerToQuaternion_radians_through_degrees (alpha beta gamma : R) s :
  eulerToQuaternion (N := RNumber) alpha beta gamma "rad" s =
    eulerToQuaternion (alpha * (180 / PI)) (beta * (180 / PI))
                      (gamma * (180 / PI)) "deg" s /\
  eulerToQuaternion (N := RNumber) alpha beta gamma "deg" s =
    (q ← quat_create;
     quat_fromEuler q gamma beta alpha "zyx";;
     quat_normalize q q;;
     mret q) s /\
  exists l x y z w,
    s !! l = None /\
    eulerToQuaternion (N := RNumber) alpha beta gamma "rad" s =
      (<[l := vec Float32Array [x; y; z; w]]> s, Ok l) /\
    norm2 x y z w = 1.
Proof.
  split; [ apply (eulerToQuaternion_rad_as_deg (N := RNumber)) | ].
  split; [ apply (eulerToQuaternion_deg_builder (N := RNumber)) | ].
  rewrite eulerToQuaternion_run. cbv zeta.
  cbn [String.eqb Ascii.eqb Bool.eqb orb].
  destruct (euler_quat_unit (to_degrees (N := RNumber) "rad" gamma)
              (to_degrees (N := RNumber) "rad" beta)
              (to_degrees (N := RNumber) "rad" alpha))
    as (a & b & c & d & E & Hn).
  reals. rewrite E, (normalized_R_unit Float32Array a b c d Hn).
  exists (fresh (dom s)), a, b, c, d.
  split; [ apply fresh_None | ]. split; [ reflexivity | exact Hn ].
Qed.

End EulerToQuaternion.

Section ZeroAxis.
Local Open Scope R_scope.



End ZeroAxis.

Section ZeroAxisCalls.
Local Open Scope R_scope.

Lemma to_radians_R u (a : R) :
  to_radians (N := RNumber) u a =
  if String.eqb u "deg" then a * (PI / 180) else a.
Proof. reflexivity. Qed.

Lemma getAxisAngleInputs_zero (angle : R) s :
  getAxisAngleInputs (N := RNumber) 0 0 0 angle s = (s, Throw InvalidAxis).
Proof.
  unfold getAxisAngleInputs. rsimp. rewrite !Reqb_true by reflexivity.
  reflexivity.
Qed.



End ZeroAxisCalls.

(** * The theorems at concrete stores *)

Section Instances.
Local Open Scope R_scope.

Ltac sample := unfold sample_store; lookup.

(** The scenario of the spec: the quarter turn about Z, as a quaternion,
    has the Euler angles (90, 0, 0) in degrees, in the order gamma, beta,
    alpha. *)
Example quaternionToEuler_quarter_turn_Z :
  quaternionToEuler (N := RNumber) loc_euler loc_q "deg"
    (sample_store [0; 0; sin (PI / 4); cos (PI / 4)]) =
  (<[loc_euler := vec Float32Array [90; 0; 0]]>
     (sample_store [0; 0; sin (PI / 4); cos (PI / 4)]), Ok loc_euler).
Proof.
  erewrite quaternionToEuler_run; [ | sample | sample | left; reflexivity ].
  rewrite !stored_R, !in_unit_R, euler_beta_R.
  unfold euler_gamma, euler_alpha, clamp. rsimp.
  cbn [String.eqb Ascii.eqb Bool.eqb].
  rewrite cos_PI4, sin_PI4.
  assert (H2 : sqrt 2 * sqrt 2 = 2) by (apply sqrt_def; lra).
  assert (Hs : 0 < sqrt 2) by (apply sqrt_lt_R0; lra).
  pose proof PI_RGT_0 as Hpi.
  replace (2 * (1 / sqrt 2 * (1 / sqrt 2) + 0 * 0)) with 1
    by (field_simplify_eq; lra).
  replace (1 - 2 * (0 * 0 + 1 / sqrt 2 * (1 / sqrt 2))) with 0
    by (field_simplify_eq; lra).
  replace (2 * (1 / sqrt 2 * 0 - 1 / sqrt 2 * 0)) with 0 by lra.
  replace (2 * (1 / sqrt 2 * 0 + 0 * (1 / sqrt 2))) with 0 by lra.
  replace (1 - 2 * (0 * 0 + 0 * 0)) with 1 by lra.
  rewrite Rmax_left, Rmin_left by (try rewrite Rmax_left; lra).
  rewrite asin_0. unfold Ratan2.
  destruct (Rlt_dec 0 0) as [H | _]; [ lra | ].
  destruct (Rlt_dec 0 1) as [_ | H]; [ | lra ].
  replace (0 / 1) with 0 by lra. rewrite atan_0.
  do 2 f_equal. unfold vec. do 2 f_equal. list_eq ltac:(field; lra).
Qed.

Lemma quaternionToEuler_unrecognized_unit_returns_witness :
  quaternionToEuler (N := RNumber) loc_euler loc_q "grad" (sample_store [0; 0; 0; 1]) =
    (sample_store [0; 0; 0; 1], Ok loc_euler) /\
  forall fn,
    (quaternionToEuler (N := RNumber) loc_euler loc_q "grad"
       (sample_store [0; 0; 0; 1])).2 <> Throw (InvalidUnit fn).
Proof.
  apply (quaternionToEuler_unrecognized_unit_returns
           (sample_store [0; 0; 0; 1]) loc_euler loc_q
           Float32Array 0 0 0 1 "grad");
    [ sample | discriminate | discriminate ].
Defined.



Lemma matrixToAxisAngle_half_turn_Y_witness :
  matrixToAxisAngle (N := RNumber) loc_out loc_m "rad" (sample_store [0; 0; 0; 1]) =
  (<[loc_out := vec Float32Array [0; 1; 0; PI]]>
     (sample_store [0; 0; 0; 1]), Ok loc_out).
Proof.
  apply (matrixToAxisAngle_half_turn_Y (sample_store [0; 0; 0; 1])
           loc_out loc_m JSArray Float32Array 0 0 0 7);
    sample.
Defined.



Lemma quaternionToMatrix_cases_witness :
  exists l, sample_store [0; 0; 0; 1] !! l = None /\
    quaternionToMatrix (N := RNumber) loc_q (sample_store [0; 0; 0; 1]) =
    (<[l := vec Float32Array [1; 0; 0; 0; 1; 0; 0; 0; 1]]>
       (sample_store [0; 0; 0; 1]), Ok l).
Proof.
  destruct (quaternionToMatrix_cases (sample_store [0; 0; 0; 1]) loc_q
              Float32Array 0 0 0 1) as (l & Hl & Hzero & _);
    [ sample | ].
  exists l. split; [ exact Hl | ].
  apply Hzero. repeat split; reflexivity.
Defined.

Lemma normalization_in_place_witness :
  (exists s',
     quaternionToAxisAngle (N := RNumber) loc_out loc_q "rad"
       (sample_store [3; 0; 0; 4]) = (s', Ok loc_out) /\
     s' !! loc_q =
       Some (vec Float32Array
               [3 / sqrt (norm2 3 0 0 4); 0 / sqrt (norm2 3 0 0 4);
                0 / sqrt (norm2 3 0 0 4); 4 / sqrt (norm2 3 0 0 4)])) /\
  (exists s' l,
     quaternionToMatrix (N := RNumber) loc_q (sample_store [3; 0; 0; 4]) =
       (s', Ok l) /\
     s' !! loc_q =
       Some (vec Float32Array
               [3 / sqrt (norm2 3 0 0 4); 0 / sqrt (norm2 3 0 0 4);
                0 / sqrt (norm2 3 0 0 4); 4 / sqrt (norm2 3 0 0 4)])).
Proof.
  destruct (normalization_in_place (sample_store [3; 0; 0; 4]) loc_out loc_q
              Float32Array Float32Array 3 0 0 4 0 0 0 7 "rad")
    as (_ & Haa & Hmat);
    [ sample | sample | discriminate | right; reflexivity
    | intros (H & _); lra | ].
  split; [ exact Haa | ].
  apply Hmat. intros (H & _). lra.
Defined.


End Instances.


(** * The rest of the code *)

(** ** Running the additional routines *)

Section MoreRuns.
Context `{N : Number}.
Local Open Scope js_scope.

Lemma quat_fromMat3_run s out m k km m0 m1 m2 m3 m4 m5 m6 m7 m8 o0 o1 o2 o3 :
  let ml := [m0; m1; m2; m3; m4; m5; m6; m7; m8] in
  s !! m = Some (vec km ml) ->
  s !! out = Some (vec k [o0; o1; o2; o3]) ->
  out <> m ->
  quat_fromMat3 out m s =
  (<[out := vec k (stored k <$> fromMat3_quat ml)]> s, Ok out).
Proof.
  intros ml Hm Hout Hne. subst ml. unfold quat_fromMat3, fromMat3_quat.
  do 3 step. cbv zeta.
  destruct (m0 + m4 + m8 >? lit 0).
  - steps. reflexivity.
  - do 2 step.
    destruct (m4 >? m0); cbv iota; do 2 step; cbn [Nat.mul Nat.add].
    + destruct (m8 >? m4); cbv iota; cbn [Nat.modulo Nat.divmod Nat.add fst snd Nat.mul Nat.sub];
        steps; reflexivity.
    + destruct (m8 >? m0); cbv iota; cbn [Nat.modulo Nat.divmod Nat.add fst snd Nat.mul Nat.sub];
        steps; reflexivity.
Qed.

Lemma fromMat3_quat_shape m0 m1 m2 m3 m4 m5 m6 m7 m8 :
  exists a b c d,
    fromMat3_quat [m0; m1; m2; m3; m4; m5; m6; m7; m8] = [a; b; c; d].
Proof.
  unfold fromMat3_quat. cbv zeta.
  destruct (m0 + m4 + m8 >? lit 0); [ eauto | ].
  destruct (m4 >? m0); [ destruct (m8 >? m4) | destruct (m8 >? m0) ]; eauto.
Qed.

Lemma matrixToQuaternion_run s m km m0 m1 m2 m3 m4 m5 m6 m7 m8 :
  let ml := [m0; m1; m2; m3; m4; m5; m6; m7; m8] in
  s !! m = Some (vec km ml) ->
  matrixToQuaternion m s =
  (<[fresh (dom s) :=
       vec Float32Array
         (normalized Float32Array (stored Float32Array <$> fromMat3_quat ml))]>
     s, Ok (fresh (dom s))).
Proof.
  intros ml Hm. unfold matrixToQuaternion.
  rewrite run_bind, quat_create_run.
  pose proof (fresh_ne s m _ Hm) as Hl.
  rewrite run_bind.
  erewrite quat_fromMat3_run; [ | lookup | lookup | exact Hl ].
  rewrite insert_insert_eq. fold ml.
  destruct (fromMat3_quat_shape m0 m1 m2 m3 m4 m5 m6 m7 m8)
    as (a & b & c & d & E).
  fold ml in E. rewrite E. cbn [fmap list_fmap].
  rewrite run_bind. erewrite quat_normalize_run by lookup.
  rewrite insert_insert_eq. reflexivity.
Qed.

End MoreRuns.

(** ** matrixToQuaternion *)

Section MatrixToQuaternion.
Local Open Scope R_scope.

Lemma sqrt_of_square (e r : R) : 0 <= r -> e = r * r -> sqrt e = r.
Proof. intros Hr ->. apply sqrt_square. exact Hr. Qed.

(** Rewrites the square root in the goal to [r], given that its argument is
    the square of the non-negative [r]. *)
Ltac root_is r :=
  match goal with
  | |- context [sqrt ?e] =>
      rewrite (sqrt_of_square e r) by (unfold norm2 in *; nra)
  end.

Lemma fromMat3_rotation (x y z w : R) :
  norm2 x y z w = 1 ->
  fromMat3_quat (N := RNumber) (rotation_matrix x y z w) = [x; y; z; w] \/
  fromMat3_quat (N := RNumber) (rotation_matrix x y z w) =
    [- x; - y; - z; - w].
Proof.
  intros Hn. unfold fromMat3_quat, rotation_matrix. cbv zeta. rsimp.
  unfold Rltb.
  destruct (Rlt_dec 0 _) as [Htr | Htr].
  - assert (Hw : w <> 0) by (unfold norm2 in *; nra).
    destruct (Rlt_dec 0 w) as [Hpos | Hneg].
    + left. root_is (2 * w). list_eq ltac:(field; lra).
    + right. root_is (- (2 * w)). list_eq ltac:(field; lra).
  - destruct (Rlt_dec _ _) as [Hyx | Hyx];
      destruct (Rlt_dec _ _) as [Hz | Hz].
    + assert (Hc : z <> 0) by (unfold norm2 in *; nra).
      destruct (Rlt_dec 0 z).
      * left. root_is (2 * z). list_eq ltac:(field; lra).
      * right. root_is (- (2 * z)). list_eq ltac:(field; lra).
    + assert (Hc : y <> 0) by (unfold norm2 in *; nra).
      destruct (Rlt_dec 0 y).
      * left. root_is (2 * y). list_eq ltac:(field; lra).
      * right. root_is (- (2 * y)). list_eq ltac:(field; lra).
    + assert (Hc : z <> 0) by (unfold norm2 in *; nra).
      destruct (Rlt_dec 0 z).
      * left. root_is (2 * z). list_eq ltac:(field; lra).
      * right. root_is (- (2 * z)). list_eq ltac:(field; lra).
    + assert (Hc : x <> 0) by (unfold norm2 in *; nra).
      destruct (Rlt_dec 0 x).
      * left. root_is (2 * x). list_eq ltac:(field; lra).
      * right. root_is (- (2 * x)). list_eq ltac:(field; lra).
Qed.

Lemma rotation_matrix_opp (x y z w : R) :
  rotation_matrix (- x) (- y) (- z) (- w) = rotation_matrix x y z w.
Proof. unfold rotation_matrix. list_eq ltac:(ring). Qed.

Lemma matrixToQuaternion_on_rotation s m km (x y z w : R) :
  s !! m = Some (vec (N := RNumber) km (rotation_matrix x y z w)) ->
  matrixToQuaternion m s =
  (<[fresh (dom s) :=
       vec Float32Array
         (normalized Float32Array
            (stored Float32Array <$>
               fromMat3_quat (N := RNumber) (rotation_matrix x y z w)))]> s,
   Ok (fresh (dom s))).
Proof.
  intros Hm.
  exact (matrixToQuaternion_run s m km _ _ _ _ _ _ _ _ _ Hm).
Qed.

Lemma rotation_matrix_vertical (w : R) :
  rotation_matrix 0 0 0 w = [1; 0; 0; 0; 1; 0; 0; 0; 1].
Proof. unfold rotation_matrix. list_eq ltac:(lra). Qed.

(** X1: [matrixToQuaternion] inverts the closed form of [quaternionToMatrix]
    up to sign. On the matrix of a unit quaternion [q] it returns a fresh
    quaternion that is exactly [q] or exactly [-q] (over the reals), and it
    writes to nothing else. *)
Theorem matrixToQuaternion_of_rotation s m km (x y z w : R) :
  s !! m = Some (vec (N := RNumber) km (rotation_matrix x y z w)) ->
  norm2 x y z w = 1 ->
  exists l, s !! l = None /\
    (matrixToQuaternion m s =
       (<[l := vec Float32Array [x; y; z; w]]> s, Ok l) \/
     matrixToQuaternion m s =
       (<[l := vec Float32Array [- x; - y; - z; - w]]> s, Ok l)).
Proof.
  intros Hm Hn. exists (fresh (dom s)). split; [ apply fresh_None | ].
  rewrite (matrixToQuaternion_on_rotation s m km x y z w Hm).
  destruct (fromMat3_rotation x y z w Hn) as [E | E]; rewrite E;
    cbn [fmap list_fmap]; rewrite !stored_R; [ left | right ];
    rewrite normalized_R_unit by (unfold norm2 in *; nra); reflexivity.
Qed.

(** X2: the round trip matrix → quaternion → matrix. For the matrix [M] of
    a unit quaternion, [quaternionToMatrix(matrixToQuaternion(M))] returns
    a fresh matrix equal to [M], entry by entry. *)
Theorem matrix_round_trip s m km (x y z w : R) :
  s !! m = Some (vec (N := RNumber) km (rotation_matrix x y z w)) ->
  norm2 x y z w = 1 ->
  exists s1 l1 s2 l2,
    matrixToQuaternion m s = (s1, Ok l1) /\
    quaternionToMatrix l1 s1 = (s2, Ok l2) /\
    s2 !! l2 = Some (vec Float32Array (rotation_matrix x y z w)) /\
    s2 !! m = Some (vec km (rotation_matrix x y z w)).
Proof.
  intros Hm Hn.
  assert (Hgen : forall a b c d : R,
             norm2 a b c d = 1 ->
             rotation_matrix a b c d = rotation_matrix x y z w ->
             matrixToQuaternion m s =
               (<[fresh (dom s) := vec (N := RNumber) Float32Array [a; b; c; d]]> s,
                Ok (fresh (dom s))) ->
             exists s1 l1 s2 l2,
               matrixToQuaternion m s = (s1, Ok l1) /\
               quaternionToMatrix l1 s1 = (s2, Ok l2) /\
               s2 !! l2 = Some (vec Float32Array (rotation_matrix x y z w)) /\
               s2 !! m = Some (vec km (rotation_matrix x y z w))).
  { intros a b c d Hn' Hrot Hrun.
    pose proof (fresh_ne s m _ Hm) as Hl.
    set (l1 := fresh (dom s)) in *.
    set (s1 := <[l1 := vec (N := RNumber) Float32Array [a; b; c; d]]> s) in *.
    assert (Hq : s1 !! l1 = Some (vec (N := RNumber) Float32Array [a; b; c; d]))
      by apply lookup_insert_eq.
    pose proof (fresh_ne s1 l1 _ Hq) as Hl2.
    assert (Hm1 : s1 !! m = Some (vec km (rotation_matrix x y z w)))
      by (unfold s1; lookup).
    pose proof (fresh_ne s1 m _ Hm1) as Hl2m.
    exists s1, l1. rewrite (quaternionToMatrix_run s1 l1 Float32Array a b c d Hq).
    cbv zeta. reals.
    destruct (zero_xyz (N := RNumber) a b c) eqn:Ez.
    - do 2 eexists. split; [ exact Hrun | ]. split; [ reflexivity | ].
      split; [ | lookup ].
      rewrite lookup_insert_eq, identity3_R, <- Hrot.
      assert (Habc : a = 0 /\ b = 0 /\ c = 0).
      { destruct (Req_dec a 0) as [Ha | Ha];
          [ destruct (Req_dec b 0) as [Hb | Hb];
            [ destruct (Req_dec c 0) as [Hc | Hc]; [ tauto | ] | ] | ];
          rewrite zero_xyz_false in Ez by tauto; discriminate. }
      destruct Habc as (-> & -> & ->).
      rewrite rotation_matrix_vertical. reflexivity.
    - do 2 eexists. split; [ exact Hrun | ]. split; [ reflexivity | ].
      split; [ | lookup ].
      rewrite lookup_insert_eq, (normalized_R_unit Float32Array a b c d Hn').
      rewrite quat_matrix_R, Hrot. reflexivity. }
  pose proof (matrixToQuaternion_on_rotation s m km x y z w Hm) as Hrun.
  destruct (fromMat3_rotation x y z w Hn) as [E | E]; rewrite E in Hrun;
    cbn [fmap list_fmap] in Hrun; rewrite !stored_R in Hrun;
    rewrite normalized_R_unit in Hrun by (unfold norm2 in *; nra).
  - apply (Hgen x y z w Hn eq_refl Hrun).
  - apply (Hgen (- x) (- y) (- z) (- w)); [ unfold norm2 in *; nra | | exact Hrun ].
    apply rotation_matrix_opp.
Qed.

End MatrixToQuaternion.

(** ** quaternionToMatrix returns rotation matrices *)

Section RotationMatrices.
Local Open Scope R_scope.

Lemma rotation_matrix_is_rotation (x y z w : R) :
  norm2 x y z w = 1 -> is_rotation (rotation_matrix x y z w).
Proof.
  intros Hn. unfold norm2 in Hn. unfold is_rotation, rotation_matrix, gram, det3.
  split; [ list_eq ltac:(nsatz) | nsatz ].
Qed.

Lemma identity_is_rotation : is_rotation [1; 0; 0; 0; 1; 0; 0; 0; 1].
Proof.
  unfold is_rotation, gram, det3. split; [ list_eq ltac:(lra) | lra ].
Qed.

(** X3: whatever quaternion it is given, [quaternionToMatrix] returns a
    rotation matrix: the columns of the fresh matrix are orthonormal and
    its determinant is 1 (over the reals). *)
Theorem quaternionToMatrix_is_rotation s q kq (x y z w : R) :
  s !! q = Some (vec (N := RNumber) kq [x; y; z; w]) ->
  exists s' l ml,
    quaternionToMatrix q s = (s', Ok l) /\
    s' !! l = Some (vec Float32Array ml) /\
    is_rotation ml.
Proof.
  intros Hq. rewrite (quaternionToMatrix_run s q kq x y z w Hq). cbv zeta.
  reals. destruct (zero_xyz (N := RNumber) x y z) eqn:Ez.
  - do 3 eexists. split; [ reflexivity | ]. split; [ apply lookup_insert_eq | ].
    rewrite identity3_R. apply identity_is_rotation.
  - assert (Hpos : 0 < norm2 x y z w).
    { apply norm2_pos. intros (-> & -> & -> & _).
      rewrite zero_xyz_true in Ez. discriminate. }
    rewrite (normalized_R kq x y z w Hpos), quat_matrix_R.
    do 3 eexists. split; [ reflexivity | ]. split; [ apply lookup_insert_eq | ].
    apply rotation_matrix_is_rotation. apply norm2_normalized. exact Hpos.
Qed.

End RotationMatrices.

(** ** isValidRotationMatrix and getMatrixFromInputs *)

Section ValidatorRuns.
Context `{N : Number}.
Local Open Scope js_scope.

Lemma mat3_transpose_run s out a k ka a0 a1 a2 a3 a4 a5 a6 a7 a8 l :
  s !! a = Some (vec ka [a0; a1; a2; a3; a4; a5; a6; a7; a8]) ->
  s !! out = Some (vec k l) ->
  length l = 9%nat ->
  out <> a ->
  mat3_transpose out a s =
  (<[out := vec k (stored k <$> transposed [a0; a1; a2; a3; a4; a5; a6; a7; a8])]>
     s, Ok out).
Proof.
  intros Ha Hout Hl Hne.
  do 10 (destruct l as [|? l]; try discriminate Hl).
  unfold mat3_transpose.
  destruct (Pos.eqb_spec out a) as [E | _]; [ contradiction | ].
  steps. reflexivity.
Qed.

Lemma mat3_multiply_run s out a b k ka kb l
      a0 a1 a2 a3 a4 a5 a6 a7 a8 b0 b1 b2 b3 b4 b5 b6 b7 b8 :
  s !! a = Some (vec ka [a0; a1; a2; a3; a4; a5; a6; a7; a8]) ->
  s !! b = Some (vec kb [b0; b1; b2; b3; b4; b5; b6; b7; b8]) ->
  s !! out = Some (vec k l) ->
  length l = 9%nat ->
  out <> a -> out <> b ->
  mat3_multiply out a b s =
  (<[out := vec k (stored k <$>
                     product [a0; a1; a2; a3; a4; a5; a6; a7; a8]
                             [b0; b1; b2; b3; b4; b5; b6; b7; b8])]> s,
   Ok out).
Proof.
  intros Ha Hb Hout Hl Hna Hnb.
  do 10 (destruct l as [|? l]; try discriminate Hl).
  unfold mat3_multiply. steps. reflexivity.
Qed.

Lemma mat3_determinant_run s a ka a0 a1 a2 a3 a4 a5 a6 a7 a8 :
  s !! a = Some (vec ka [a0; a1; a2; a3; a4; a5; a6; a7; a8]) ->
  mat3_determinant a s =
  (s, Ok (determinant [a0; a1; a2; a3; a4; a5; a6; a7; a8])).
Proof. intros Ha. unfold mat3_determinant. steps. reflexivity. Qed.

Lemma mat3_equals_run s a b ka kb
      a0 a1 a2 a3 a4 a5 a6 a7 a8 b0 b1 b2 b3 b4 b5 b6 b7 b8 :
  s !! a = Some (vec ka [a0; a1; a2; a3; a4; a5; a6; a7; a8]) ->
  s !! b = Some (vec kb [b0; b1; b2; b3; b4; b5; b6; b7; b8]) ->
  mat3_equals a b s =
  (s, Ok (all_near [a0; a1; a2; a3; a4; a5; a6; a7; a8]
                   [b0; b1; b2; b3; b4; b5; b6; b7; b8])).
Proof. intros Ha Hb. unfold mat3_equals. steps. reflexivity. Qed.

Lemma isValidRotationMatrix_run s r kr r0 r1 r2 r3 r4 r5 r6 r7 r8 :
  let rl := [r0; r1; r2; r3; r4; r5; r6; r7; r8] in
  s !! r = Some (vec kr rl) ->
  exists s',
    isValidRotationMatrix r s = (s', Ok (valid_rotation rl)) /\ s ⊆ s'.
Proof.
  intros rl Hr. subst rl. unfold isValidRotationMatrix.
  rewrite run_bind, mat3_create_run.
  pose proof (fresh_None s) as F1. pose proof (fresh_ne s r _ Hr) as N1r.
  set (l1 := fresh (dom s)) in *.
  set (s1 := <[l1 := vec Float32Array identity3]> s).
  assert (H1 : s1 !! l1 = Some (vec Float32Array identity3))
    by apply lookup_insert_eq.
  assert (Hr1 : s1 !! r = Some (vec kr [r0; r1; r2; r3; r4; r5; r6; r7; r8]))
    by (unfold s1; lookup).
  rewrite run_bind, mat3_create_run.
  pose proof (fresh_None s1) as F2.
  pose proof (fresh_ne s1 r _ Hr1) as N2r.
  pose proof (fresh_ne s1 l1 _ H1) as N21.
  set (l2 := fresh (dom s1)) in *.
  rewrite run_bind.
  erewrite mat3_transpose_run;
    [ | lookup | lookup | reflexivity | exact N2r ].
  rewrite insert_insert_eq.
  set (s2 := <[l2 := _]> s1).
  assert (H2 : s2 !! l2 =
               Some (vec Float32Array
                       (stored Float32Array <$>
                          transposed [r0; r1; r2; r3; r4; r5; r6; r7; r8])))
    by apply lookup_insert_eq.
  assert (Hr2 : s2 !! r = Some (vec kr [r0; r1; r2; r3; r4; r5; r6; r7; r8]))
    by (unfold s2; lookup).
  assert (H12 : s2 !! l1 = Some (vec Float32Array identity3))
    by (unfold s2; lookup).
  rewrite run_bind, mat3_create_run.
  pose proof (fresh_None s2) as F3.
  pose proof (fresh_ne s2 r _ Hr2) as N3r.
  pose proof (fresh_ne s2 l1 _ H12) as N31.
  pose proof (fresh_ne s2 l2 _ H2) as N32.
  set (l3 := fresh (dom s2)) in *.
  rewrite run_bind.
  cbn [transposed fmap list_fmap] in *.
  erewrite mat3_multiply_run;
    [ | lookup | lookup | lookup | reflexivity | exact N32 | exact N3r ].
  rewrite insert_insert_eq.
  set (s3 := <[l3 := _]> s2).
  rewrite run_bind.
  erewrite mat3_determinant_run by (unfold s3; lookup).
  rewrite run_bind. cbn [product fmap list_fmap].
  unfold identity3 in *.
  erewrite mat3_equals_run; [ | unfold s3; lookup | unfold s3; lookup ].
  exists s3. split.
  - unfold valid_rotation. cbv zeta.
    cbn [transposed product fmap list_fmap]. unfold identity3.
    destruct (negb _ || _ || _); reflexivity.
  - transitivity s1; [ apply insert_subseteq; exact F1 | ].
    transitivity s2; [ apply insert_subseteq; exact F2 | ].
    apply insert_subseteq; exact F3.
Qed.

Lemma run_push s a l v :
  s !! a = Some (vec JSArray l) ->
  push a v s = (<[a := vec JSArray (l ++ [v])]> s, Ok tt).
Proof.
  intros Ha. unfold push. rewrite Ha. unfold store_elem, vec. cbn [akind elems].
  rewrite Nat.ltb_irrefl, Nat.sub_diag, fmap_app. reflexivity.
Qed.

Lemma mat3_fromValues_run s m0 m1 m2 m3 m4 m5 m6 m7 m8 :
  mat3_fromValues m0 m1 m2 m3 m4 m5 m6 m7 m8 s =
  (<[fresh (dom s) :=
       vec Float32Array
         (stored Float32Array <$> [m0; m1; m2; m3; m4; m5; m6; m7; m8])]> s,
   Ok (fresh (dom s))).
Proof.
  unfold mat3_fromValues. rewrite run_bind, new_array_run. simpl replicate.
  steps. reflexivity.
Qed.

Lemma fill_run s m field :
  s !! m = Some (vec JSArray []) ->
  for_range 3 (fun j => for_range 3 (fun i => push m (field i j))) s =
  (<[m := vec JSArray (column_major field)]> s, Ok tt).
Proof.
  intros Hm. unfold for_range. cbn [seq foldr].
  repeat (rewrite ?run_assoc; rewrite run_bind;
          first [ erewrite run_push by lookup;
                  rewrite ?insert_insert_eq; cbn [app]
                | rewrite run_mret ]).
  reflexivity.
Qed.

(** X4: [getMatrixFromInputs], whatever the numbers are. The matrix it
    returns is a fresh plain array in column-major order (the field of row
    [i] and column [j] at index [3j + i]); the verdict is that of
    [isValidRotationMatrix] on a [Float32Array] copy of it, and a rejected
    matrix gives the "Invalid rotation matrix" error. Nothing the store
    already held is changed. *)
Theorem getMatrixFromInputs_layout s (field : nat -> nat -> num) :
  exists s' m,
    getMatrixFromInputs field s =
      (s', Ok (if valid_rotation (stored Float32Array <$> column_major field)
               then inr m else inl InvalidMatrix)) /\
    s !! m = None /\
    s' !! m = Some (vec JSArray (column_major field)) /\
    (forall i j, (i < 3)%nat -> (j < 3)%nat ->
       column_major field !! (3 * j + i)%nat = Some (field i j)) /\
    s ⊆ s'.
Proof.
  unfold getMatrixFromInputs. rewrite run_bind. unfold new_js_array at 1.
  pose proof (fresh_None s) as F0.
  set (m := fresh (dom s)) in *.
  change (Arr JSArray []) with (vec JSArray []).
  rewrite run_bind.
  erewrite fill_run by apply lookup_insert_eq.
  rewrite insert_insert_eq.
  set (s0 := <[m := vec JSArray (column_major field)]> s).
  assert (Hm : s0 !! m = Some (vec JSArray (column_major field)))
    by apply lookup_insert_eq.
  unfold column_major in Hm. do 9 step.
  rewrite run_bind, mat3_fromValues_run.
  pose proof (fresh_None s0) as F1.
  pose proof (fresh_ne s0 m _ Hm) as N1.
  set (rot := fresh (dom s0)) in *.
  set (s1 := <[rot := _]> s0).
  assert (Hrot : s1 !! rot =
                 Some (vec Float32Array
                         (stored Float32Array <$> column_major field)))
    by apply lookup_insert_eq.
  cbn [column_major fmap list_fmap] in Hrot.
  destruct (isValidRotationMatrix_run s1 rot Float32Array _ _ _ _ _ _ _ _ _ Hrot)
    as (s2 & Hrun & Hsub).
  rewrite run_bind, Hrun.
  exists s2, m. split; [ | split; [ exact F0 | split; [ | split ] ] ].
  - cbn [column_major fmap list_fmap].
    destruct (valid_rotation _); reflexivity.
  - apply (lookup_weaken s1); [ unfold s1; lookup | exact Hsub ].
  - intros i j Hi Hj.
    destruct i as [|[|[|i]]]; destruct j as [|[|[|j]]]; try lia; reflexivity.
  - transitivity s0; [ apply insert_subseteq; exact F0 | ].
    transitivity s1; [ apply insert_subseteq; exact F1 | exact Hsub ].
Qed.

End ValidatorRuns.

Section ValidatorReals.
Local Open Scope R_scope.

Lemma near_same (a : R) : near (N := RNumber) a a = true.
Proof.
  unfold near, leb, EPSILON. rsimp. apply Rgeb_true.
  replace (a - a) with 0 by lra. rewrite Rabs_R0.
  assert (1 <= Rmax (Rmax 1 (Rabs a)) (Rabs a)).
  { eapply Rle_trans; [ apply (Rmax_l 1 (Rabs a)) | apply Rmax_l ]. }
  nra.
Qed.

Lemma product_gram (m : list R) :
  length m = 9%nat ->
  stored (N := RNumber) Float32Array <$>
    product (stored Float32Array <$> transposed m) m = gram m.
Proof.
  intros Hl. do 10 (destruct m as [|? m]; try discriminate Hl).
  unfold transposed, product, gram. cbn [fmap list_fmap]. rewrite !stored_R.
  rsimp. list_eq ltac:(ring).
Qed.

Lemma determinant_det3 (m : list R) :
  length m = 9%nat -> determinant (N := RNumber) m = det3 m.
Proof.
  intros Hl. do 10 (destruct m as [|? m]; try discriminate Hl).
  unfold determinant, det3, neg. rsimp. ring.
Qed.

(** The verdict in terms of the determinant and of the column products. *)
Lemma valid_rotation_R (m : list R) :
  length m = 9%nat ->
  valid_rotation (N := RNumber) m =
  all_near (N := RNumber) (gram m) [1; 0; 0; 0; 1; 0; 0; 0; 1]
  && negb (Rltb (det3 m) (999 / 1000)) && negb (Rltb (1001 / 1000) (det3 m)).
Proof.
  intros Hl. unfold valid_rotation. cbv zeta.
  rewrite (product_gram m Hl), (determinant_det3 m Hl), identity3_R. rsimp.
  destruct (all_near _ _), (Rltb (det3 m) _), (Rltb _ (det3 m)); reflexivity.
Qed.

Lemma all_near_identity :
  all_near (N := RNumber) [1; 0; 0; 0; 1; 0; 0; 0; 1]
           [1; 0; 0; 0; 1; 0; 0; 0; 1] = true.
Proof. unfold all_near. rewrite !near_same. reflexivity. Qed.

Lemma valid_rotation_accepts (m : list R) :
  length m = 9%nat -> is_rotation m -> valid_rotation (N := RNumber) m = true.
Proof.
  intros Hl [Hg Hd]. rewrite (valid_rotation_R m Hl), Hg, Hd, all_near_identity.
  rewrite !Rltb_false by lra. reflexivity.
Qed.

Lemma valid_rotation_rejects (m : list R) :
  length m = 9%nat ->
  det3 m < 999 / 1000 \/ 1001 / 1000 < det3 m ->
  valid_rotation (N := RNumber) m = false.
Proof.
  intros Hl Hd. rewrite (valid_rotation_R m Hl).
  destruct Hd as [Hd | Hd]; rewrite (Rltb_true _ _ Hd); cbn [negb];
    rewrite ?andb_false_r; reflexivity.
Qed.

Lemma is_rotation_length (m : list R) : is_rotation m -> length m = 9%nat.
Proof.
  intros [Hg _]. unfold gram in Hg.
  do 10 (destruct m as [|? m]; try discriminate Hg). reflexivity.
Qed.

(** X5: the verdict of [isValidRotationMatrix] over the reals. Every matrix
    with orthonormal columns and determinant 1 is accepted, every matrix
    whose determinant is below 0.999 or above 1.001 (a reflection, the zero
    matrix, a scaled rotation) is rejected; the call only allocates its
    temporaries and changes nothing the store already held. *)
Theorem isValidRotationMatrix_verdict s r kr (m : list R) :
  s !! r = Some (vec (N := RNumber) kr m) ->
  length m = 9%nat ->
  exists s' b,
    isValidRotationMatrix r s = (s', Ok b) /\
    s ⊆ s' /\
    (is_rotation m -> b = true) /\
    (det3 m < 999 / 1000 \/ 1001 / 1000 < det3 m -> b = false).
Proof.
  intros Hr Hl.
  pose proof Hl as Hl'.
  do 10 (destruct m as [|? m]; try discriminate Hl').
  destruct (isValidRotationMatrix_run s r kr _ _ _ _ _ _ _ _ _ Hr)
    as (s' & Hrun & Hsub).
  exists s'. eexists. split; [ exact Hrun | ]. split; [ exact Hsub | ].
  split; [ apply (valid_rotation_accepts _ Hl)
         | apply (valid_rotation_rejects _ Hl) ].
Qed.

(** X6: the engine and the form agree on what a rotation matrix is: the
    matrix that [quaternionToMatrix] returns, for any quaternion, is
    accepted by [isValidRotationMatrix]. *)
Theorem quaternionToMatrix_passes_validation s q kq (x y z w : R) :
  s !! q = Some (vec (N := RNumber) kq [x; y; z; w]) ->
  exists s1 l s2,
    quaternionToMatrix q s = (s1, Ok l) /\
    isValidRotationMatrix l s1 = (s2, Ok true).
Proof.
  intros Hq.
  assert (Hm : exists s1 l ml,
             quaternionToMatrix q s = (s1, Ok l) /\
             s1 !! l = Some (vec (N := RNumber) Float32Array ml) /\
             is_rotation ml).
  { rewrite (quaternionToMatrix_run s q kq x y z w Hq). cbv zeta.
    reals. destruct (zero_xyz (N := RNumber) x y z) eqn:Ez.
    - do 3 eexists. split; [ reflexivity | ].
      split; [ apply lookup_insert_eq | ].
      rewrite identity3_R. apply identity_is_rotation.
    - assert (Hpos : 0 < norm2 x y z w).
      { apply norm2_pos. intros (-> & -> & -> & _).
        rewrite zero_xyz_true in Ez. discriminate. }
      rewrite (normalized_R kq x y z w Hpos), quat_matrix_R.
      do 3 eexists. split; [ reflexivity | ].
      split; [ apply lookup_insert_eq | ].
      apply rotation_matrix_is_rotation. apply norm2_normalized. exact Hpos. }
  destruct Hm as (s1 & l & ml & Hrun & Hl & Hrot).
  pose proof (is_rotation_length ml Hrot) as Hlen.
  pose proof Hlen as Hlen'.
  do 10 (destruct ml as [|? ml]; try discriminate Hlen').
  destruct (isValidRotationMatrix_run s1 l Float32Array _ _ _ _ _ _ _ _ _ Hl)
    as (s2 & Hv & _).
  rewrite (valid_rotation_accepts _ Hlen Hrot) in Hv.
  exists s1, l, s2. split; assumption.
Qed.

End ValidatorReals.

(** ** getQuaternionFromInputs *)

Section QuaternionInputs.
Context `{N : Number}.
Local Open Scope js_scope.

Lemma quat_fromValues_run s x y z w :
  quat_fromValues x y z w s =
  (<[fresh (dom s) :=
       vec Float32Array [fround x; fround y; fround z; fround w]]> s,
   Ok (fresh (dom s))).
Proof.
  unfold quat_fromValues. rewrite run_bind, new_array_run. simpl replicate.
  steps. reflexivity.
Qed.

Lemma getQuaternionFromInputs_run s qx qy qz qw :
  getQuaternionFromInputs qx qy qz qw s =
  (<[fresh (dom s) :=
       vec Float32Array
         (normalized Float32Array [fround qx; fround qy; fround qz; fround qw])]>
     s, Ok (inr (fresh (dom s)))).
Proof.
  unfold getQuaternionFromInputs. rewrite run_bind, quat_fromValues_run.
  unfold try_catch. rewrite run_bind.
  erewrite quat_normalize_run by lookup.
  rewrite insert_insert_eq. reflexivity.
Qed.

End QuaternionInputs.

Section QuaternionInputsReals.
Local Open Scope R_scope.

Lemma normalized_R_zero k :
  normalized (N := RNumber) k [0; 0; 0; 0] = [0; 0; 0; 0].
Proof.
  unfold normalized, scale4. rsimp. rewrite !stored_R.
  replace (0 * 0 + 0 * 0 + 0 * 0 + 0 * 0) with 0 by lra.
  rewrite Rltb_false by lra. list_eq ltac:(lra).
Qed.

(** X7: [getQuaternionFromInputs] never raises its "Invalid quaternion"
    error: [quat.normalize] throws nothing, so the [catch] is never
    entered. Over the reals the fresh quaternion it returns has norm 1 when
    some field is non-zero; when all four fields are 0 it is the zero
    quaternion, returned as a result like any other. *)
Theorem getQuaternionFromInputs_returns s (qx qy qz qw : R) :
  exists l x y z w,
    s !! l = None /\
    getQuaternionFromInputs (N := RNumber) qx qy qz qw s =
      (<[l := vec Float32Array [x; y; z; w]]> s, Ok (inr l)) /\
    (~ (qx = 0 /\ qy = 0 /\ qz = 0 /\ qw = 0) -> norm2 x y z w = 1) /\
    (qx = 0 /\ qy = 0 /\ qz = 0 /\ qw = 0 ->
     x = 0 /\ y = 0 /\ z = 0 /\ w = 0).
Proof.
  rewrite getQuaternionFromInputs_run. rsimp.
  destruct (Req_dec qx 0) as [Hx | Hx];
    [ destruct (Req_dec qy 0) as [Hy | Hy];
      [ destruct (Req_dec qz 0) as [Hz | Hz];
        [ destruct (Req_dec qw 0) as [Hw | Hw] | ] | ] | ].
  1: { subst. rewrite normalized_R_zero.
       exists (fresh (dom s)), 0, 0, 0, 0.
       split; [ apply fresh_None | ]. split; [ reflexivity | ].
       split; [ tauto | auto ]. }
  all: assert (Hpos : 0 < norm2 qx qy qz qw) by (apply norm2_pos; tauto);
    rewrite (normalized_R Float32Array qx qy qz qw Hpos);
    do 5 eexists; split; [ apply fresh_None | ];
    (split; [ reflexivity | ]);
    (split; [ intros _; apply norm2_normalized; exact Hpos | tauto ]).
Qed.

End QuaternionInputsReals.

(** ** More on the axis-angle conversions *)

Section AxisAngleReals.
Local Open Scope R_scope.



Lemma normalized_vertical_pos k (w : R) :
  0 < w -> normalized (N := RNumber) k [0; 0; 0; w] = [0; 0; 0; 1].
Proof.
  intros Hw. rewrite normalized_R by (unfold norm2; nra).
  replace (norm2 0 0 0 w) with (w * w) by (unfold norm2; lra).
  rewrite sqrt_square by lra. list_eq ltac:(field; lra).
Qed.

Lemma normalized_vertical_neg k (w : R) :
  w < 0 -> normalized (N := RNumber) k [0; 0; 0; w] = [0; 0; 0; -1].
Proof.
  intros Hw. rewrite normalized_R by (unfold norm2; nra).
  replace (norm2 0 0 0 w) with ((- w) * (- w)) by (unfold norm2; lra).
  rewrite sqrt_square by lra. list_eq ltac:(field; lra).
Qed.

Lemma axis_written_vertical ko (o3 : R) :
  axis_written (N := RNumber) ko [0; 0; 0; 1] o3 = [1; 0; 0; o3] /\
  axis_written (N := RNumber) ko [0; 0; 0; -1] o3 = [1; 0; 0; o3] /\
  axis_written (N := RNumber) ko [0; 0; 0; 0] o3 = [0; 0; 0; o3].
Proof.
  unfold axis_written, axisAngle_axis, axisAngle_angle, EPSILON. rsimp.
  rewrite acos_1, acos_m1, acos_0.
  replace (0 * 2 / 2) with 0 by lra.
  replace (PI * 2 / 2) with PI by lra.
  replace (PI / 2 * 2 / 2) with (PI / 2) by lra.
  rewrite sin_0, sin_PI, sin_PI2.
  rewrite (Rltb_false _ 0) by lra. rewrite (Rltb_true _ 1) by lra.
  rewrite !stored_R. repeat split. list_eq ltac:(lra).
Qed.

(** X9: [quaternionToAxisAngle] on the quaternions [(0, 0, 0, w)], those
    for which [quaternionToMatrix] returns the identity, for a recognized
    unit. For [w > 0] it writes the axis (1,0,0) and the angle 0; for
    [w < 0] the axis (1,0,0) and the angle [2 PI] (360 degrees); for the
    zero quaternion the axis (0,0,0), which is no axis, and the angle [PI]
    (180 degrees). *)
Theorem quaternionToAxisAngle_vertical
        s out q kq ko (w o0 o1 o2 o3 : R) u :
  s !! q = Some (vec (N := RNumber) kq [0; 0; 0; w]) ->
  s !! out = Some (vec ko [o0; o1; o2; o3]) ->
  out <> q ->
  valid_unit u ->
  let unit a := if String.eqb u "deg" then a * (180 / PI) else a in
  (0 < w ->
   quaternionToAxisAngle out q u s =
   (<[out := vec ko [1; 0; 0; unit 0]]> (<[q := vec kq [0; 0; 0; 1]]> s),
    Ok out)) /\
  (w < 0 ->
   quaternionToAxisAngle out q u s =
   (<[out := vec ko [1; 0; 0; unit (2 * PI)]]>
      (<[q := vec kq [0; 0; 0; -1]]> s), Ok out)) /\
  (w = 0 ->
   quaternionToAxisAngle out q u s =
   (<[out := vec ko [0; 0; 0; unit PI]]> (<[q := vec kq [0; 0; 0; 0]]> s),
    Ok out)).
Proof.
  intros Hq Hout Hne Hu unit.
  rewrite (quaternionToAxisAngle_run s out q kq ko 0 0 0 w o0 o1 o2 o3 u)
    by assumption.
  cbv zeta. rewrite (valid_unit_eqb u Hu). reals.
  destruct (axis_written_vertical ko o3) as (A1 & A2 & A3).
  repeat split.
  - intros Hw. rewrite (normalized_vertical_pos kq w Hw), A1.
    cbn [angle_of list_insert]. rewrite stored_R, in_unit_R.
    unfold axisAngle_angle. rsimp. rewrite acos_1.
    replace (0 * 2) with 0 by lra. reflexivity.
  - intros Hw. rewrite (normalized_vertical_neg kq w Hw), A2.
    cbn [angle_of list_insert]. rewrite stored_R, in_unit_R.
    unfold axisAngle_angle. rsimp. rewrite acos_m1.
    replace (PI * 2) with (2 * PI) by lra. reflexivity.
  - intros ->. rewrite (normalized_R_zero kq), A3.
    cbn [angle_of list_insert]. rewrite stored_R, in_unit_R.
    unfold axisAngle_angle. rsimp. rewrite acos_0.
    replace (PI / 2 * 2) with PI by lra. reflexivity.
Qed.

(** The squared length of an axis. *)
Lemma len3_pos (x y z : R) :
  ~ (x = 0 /\ y = 0 /\ z = 0) -> 0 < x * x + y * y + z * z.
Proof.
  intros H.
  destruct (Req_dec x 0) as [-> | Hx]; [ | nra ].
  destruct (Req_dec y 0) as [-> | Hy]; [ | nra ].
  destruct (Req_dec z 0) as [-> | Hz]; [ tauto | nra ].
Qed.

Lemma normalized3_R (x y z : R) :
  0 < x * x + y * y + z * z ->
  normalized3 (N := RNumber) Float32Array [x; y; z] =
  [x / sqrt (x * x + y * y + z * z); y / sqrt (x * x + y * y + z * z);
   z / sqrt (x * x + y * y + z * z)].
Proof.
  intros H. unfold normalized3, scale3. rsimp. rewrite Rltb_true by exact H.
  rewrite !stored_R. list_eq ltac:(unfold Rdiv; ring).
Qed.

(** The quaternion [axisAngleToQuaternion] builds for the axis [(x, y, z)]
    and the angle [rad] in radians. *)
Lemma axis_quat_R (x y z rad : R) :
  0 < x * x + y * y + z * z ->
  let n := sqrt (x * x + y * y + z * z) in
  normalized (N := RNumber) Float32Array
    (stored Float32Array <$>
       axisAngle_quat (normalized3 Float32Array [x; y; z]) rad) =
  [sin (rad / 2) * (x / n); sin (rad / 2) * (y / n); sin (rad / 2) * (z / n);
   cos (rad / 2)] /\
  norm2 (sin (rad / 2) * (x / n)) (sin (rad / 2) * (y / n))
        (sin (rad / 2) * (z / n)) (cos (rad / 2)) = 1.
Proof.
  intros Hpos n. rewrite (normalized3_R x y z Hpos). fold n.
  assert (Hn : 0 < n) by (apply sqrt_lt_R0; exact Hpos).
  assert (Hnn : n * n = x * x + y * y + z * z) by (apply sqrt_def; lra).
  assert (Hunit : norm2 (sin (rad / 2) * (x / n)) (sin (rad / 2) * (y / n))
                        (sin (rad / 2) * (z / n)) (cos (rad / 2)) = 1).
  { pose proof (sin2_cos2 (rad / 2)) as Hsc. unfold Rsqr, norm2 in *.
    replace (sin (rad / 2) * (x / n) * (sin (rad / 2) * (x / n)) +
             sin (rad / 2) * (y / n) * (sin (rad / 2) * (y / n)) +
             sin (rad / 2) * (z / n) * (sin (rad / 2) * (z / n)))
      with (sin (rad / 2) * sin (rad / 2) * ((x * x + y * y + z * z) / (n * n)))
      by (field; lra).
    rewrite <- Hnn. replace (n * n / (n * n)) with 1 by (field; lra). lra. }
  split; [ | exact Hunit ].
  unfold axisAngle_quat. rsimp. cbn [fmap list_fmap]. rewrite !stored_R.
  replace (rad * (5 / 10)) with (rad / 2) by lra.
  apply normalized_R_unit. exact Hunit.
Qed.

(** X10: [axisAngleToQuaternion] on an axis with some non-zero component,
    for a recognized unit. The axis need not be normalized: the fresh
    quaternion is [(sin(a/2) * axis / |axis|, cos(a/2))], [a] being the
    angle in radians, it has norm 1, and nothing the store held before is
    changed (over the reals). *)
Theorem axisAngleToQuaternion_closed_form s (x y z angle : R) u :
  valid_unit u ->
  ~ (x = 0 /\ y = 0 /\ z = 0) ->
  let rad := if String.eqb u "deg" then angle * (PI / 180) else angle in
  let n := sqrt (x * x + y * y + z * z) in
  exists s' l,
    axisAngleToQuaternion (N := RNumber) x y z angle u s = (s', Ok l) /\
    s !! l = None /\
    s' !! l =
      Some (vec Float32Array
              [sin (rad / 2) * (x / n); sin (rad / 2) * (y / n);
               sin (rad / 2) * (z / n); cos (rad / 2)]) /\
    norm2 (sin (rad / 2) * (x / n)) (sin (rad / 2) * (y / n))
          (sin (rad / 2) * (z / n)) (cos (rad / 2)) = 1 /\
    s ⊆ s'.
Proof.
  intros Hu Hnz rad n.
  pose proof (len3_pos x y z Hnz) as Hpos.
  rewrite axisAngleToQuaternion_run. cbv zeta.
  rewrite (valid_unit_eqb u Hu).
  destruct (axis_quat_R x y z (to_radians (N := RNumber) u angle) Hpos)
    as [Hval Hunit].
  rewrite to_radians_R in Hunit. fold rad n in Hunit.
  rsimp. rewrite Hval. rewrite to_radians_R. fold rad n.
  pose proof (fresh_None s) as F1.
  set (l1 := fresh (dom s)) in *.
  set (s1 := <[l1 := _]> s).
  pose proof (fresh_None s1) as F2.
  set (l2 := fresh (dom s1)) in *.
  exists (<[l2 := vec (N := RNumber) Float32Array
                    [sin (rad / 2) * (x / n); sin (rad / 2) * (y / n);
                     sin (rad / 2) * (z / n); cos (rad / 2)]]> s1), l2.
  split; [ reflexivity | ].
  split; [ | split; [ apply lookup_insert_eq | split; [ exact Hunit | ] ] ].
  - eapply lookup_weaken_None; [ exact F2 | ].
    apply insert_subseteq. exact F1.
  - transitivity s1; apply insert_subseteq; assumption.
Qed.



End AxisAngleReals.

(** ** More on matrixToAxisAngle *)

Section MatrixToAxisAngleReals.
Local Open Scope R_scope.






End MatrixToAxisAngleReals.

(** ** What the conversions leave alone *)

Section Frames.
Context `{N : Number}.
Local Open Scope js_scope.

Lemma unit_cases u : valid_unit u \/ (u <> "deg" /\ u <> "rad").
Proof.
  destruct (String.eqb_spec u "deg") as [-> | Hd]; [ left; left; reflexivity | ].
  destruct (String.eqb_spec u "rad") as [-> | Hr]; [ left; right; reflexivity | ].
  right. split; assumption.
Qed.

(** X14: [quaternionToEuler] and [matrixToAxisAngle] write to [out] and to
    nothing else, whatever the unit selector is, recognized or not, and
    whatever the numbers are: the quaternion, respectively the matrix, they
    are given is left as it was (unlike [quaternionToAxisAngle] and
    [quaternionToMatrix], which normalize their argument in place). *)
Theorem only_out_is_written s out3 out4 q m kq km k3 k4 x y z w
        m0 m1 m2 m3 m4 m5 m6 m7 m8 a0 a1 a2 b0 b1 b2 b3 u :
  s !! q = Some (vec kq [x; y; z; w]) ->
  s !! m = Some (vec km [m0; m1; m2; m3; m4; m5; m6; m7; m8]) ->
  s !! out3 = Some (vec k3 [a0; a1; a2]) ->
  s !! out4 = Some (vec k4 [b0; b1; b2; b3]) ->
  (forall l, l <> out3 -> (quaternionToEuler out3 q u s).1 !! l = s !! l) /\
  (forall l, l <> out4 -> (matrixToAxisAngle out4 m u s).1 !! l = s !! l).
Proof.
  intros Hq Hm H3 H4. split; intros l Hl.
  - destruct (unit_cases u) as [Hu | [Hd Hr]].
    + rewrite (quaternionToEuler_run s out3 q kq k3 x y z w a0 a1 a2 u Hq H3 Hu).
      cbn [fst]. apply lookup_insert_ne. congruence.
    + rewrite (quaternionToEuler_invalid s out3 q kq x y z w u Hq Hd Hr).
      reflexivity.
  - rewrite (matrixToAxisAngle_run s out4 m km k4 m0 m1 m2 m3 m4 m5 m6 m7 m8
               b0 b1 b2 b3 u Hm H4).
    destruct (matrix_axis _) as [[ax ay] az]. cbv zeta.
    destruct (String.eqb u "deg" || String.eqb u "rad"); cbn [fst];
      apply lookup_insert_ne; congruence.
Qed.

End Frames.

(** ** getOrbitBasis and getAxisAngleInputs *)

Section OrbitBasisRuns.
Context `{N : Number}.
Local Open Scope js_scope.


End OrbitBasisRuns.

Section OrbitBasisReals.
Local Open Scope R_scope.


End OrbitBasisReals.

Section AxisInputsReals.
Local Open Scope R_scope.

Lemma getAxisAngleInputs_nonzero (x y z angle : R) s :
  ~ (x = 0 /\ y = 0 /\ z = 0) ->
  getAxisAngleInputs (N := RNumber) x y z angle s = (s, Ok (x, y, z, angle)).
Proof.
  intros Hnz. unfold getAxisAngleInputs. rsimp. unfold Reqb.
  destruct (Req_dec_T x 0) as [Hx | Hx]; [ | reflexivity ].
  destruct (Req_dec_T y 0) as [Hy | Hy]; [ | reflexivity ].
  destruct (Req_dec_T z 0) as [Hz | Hz]; [ tauto | reflexivity ].
Qed.

(** X16: the axis-angle inputs of the form. [getAxisAngleInputs] raises its
    "Invalid axis" error exactly when the three axis fields are all 0, and
    otherwise hands the four numbers on unchanged; for every input it lets
    through, and a recognized unit, [axisAngleToQuaternion] then returns a
    quaternion of norm 1 (over the reals). *)
Theorem getAxisAngleInputs_guards_engine (x y z angle : R) u s :
  valid_unit u ->
  (getAxisAngleInputs (N := RNumber) x y z angle s = (s, Throw InvalidAxis)
   <-> x = 0 /\ y = 0 /\ z = 0) /\
  (~ (x = 0 /\ y = 0 /\ z = 0) ->
   getAxisAngleInputs (N := RNumber) x y z angle s = (s, Ok (x, y, z, angle)) /\
   exists s' l qx qy qz qw,
     axisAngleToQuaternion (N := RNumber) x y z angle u s = (s', Ok l) /\
     s' !! l = Some (vec Float32Array [qx; qy; qz; qw]) /\
     norm2 qx qy qz qw = 1).
Proof.
  intros Hu. split; [ split | ].
  - intros Hthrow.
    destruct (Req_dec x 0) as [Hx | Hx];
      [ destruct (Req_dec y 0) as [Hy | Hy];
        [ destruct (Req_dec z 0) as [Hz | Hz]; [ tauto | ] | ] | ];
      rewrite getAxisAngleInputs_nonzero in Hthrow by tauto; discriminate.
  - intros (-> & -> & ->). apply getAxisAngleInputs_zero.
  - intros Hnz. split; [ apply getAxisAngleInputs_nonzero; exact Hnz | ].
    pose proof (len3_pos x y z Hnz) as Hpos.
    rewrite axisAngleToQuaternion_run. cbv zeta.
    rewrite (valid_unit_eqb u Hu).
    destruct (axis_quat_R x y z (to_radians (N := RNumber) u angle) Hpos)
      as [Hval Hunit].
    rsimp. rewrite Hval.
    do 6 eexists. split; [ reflexivity | ].
    split; [ apply lookup_insert_eq | exact Hunit ].
Qed.

End AxisInputsReals.

(** ** Euler angles there and back *)

Section Atan2.
Local Open Scope R_scope.




End Atan2.

Section EulerRoundTrip.
Local Open Scope R_scope.




End EulerRoundTrip.

(** ** eulerToQuaternion returns unit quaternions *)

Section EulerUnit.
Local Open Scope R_scope.

(** X18: for a recognized unit and any three angles, [eulerToQuaternion]
    returns a fresh quaternion of norm 1 and changes nothing the store
    already held; [quaternionToMatrix] then leaves that quaternion as it is
    and returns a rotation matrix (over the reals). *)
Theorem eulerToQuaternion_unit s (alpha beta gamma : R) u :
  valid_unit u ->
  exists s1 l x y z w s2 lm ml,
    eulerToQuaternion (N := RNumber) alpha beta gamma u s = (s1, Ok l) /\
    s !! l = None /\ s ⊆ s1 /\
    s1 !! l = Some (vec Float32Array [x; y; z; w]) /\
    norm2 x y z w = 1 /\
    quaternionToMatrix l s1 = (s2, Ok lm) /\
    s2 !! l = Some (vec Float32Array [x; y; z; w]) /\
    s2 !! lm = Some (vec Float32Array ml) /\
    is_rotation ml.
Proof.
  intros Hu. rewrite eulerToQuaternion_run. cbv zeta.
  rewrite (valid_unit_eqb u Hu).
  destruct (euler_quat_unit (to_degrees (N := RNumber) u gamma)
              (to_degrees (N := RNumber) u beta)
              (to_degrees (N := RNumber) u alpha))
    as (x & y & z & w & E & Hn).
  reals. rewrite E, (normalized_R_unit Float32Array x y z w Hn).
  pose proof (fresh_None s) as F1.
  set (l := fresh (dom s)) in *.
  set (s1 := <[l := vec (N := RNumber) Float32Array [x; y; z; w]]> s).
  assert (Hq : s1 !! l = Some (vec (N := RNumber) Float32Array [x; y; z; w]))
    by apply lookup_insert_eq.
  pose proof (fresh_ne s1 l _ Hq) as N1.
  exists s1, l, x, y, z, w.
  rewrite (quaternionToMatrix_run s1 l Float32Array x y z w Hq). cbv zeta.
  reals. rewrite (normalized_R_unit Float32Array x y z w Hn).
  destruct (zero_xyz (N := RNumber) x y z); do 3 eexists;
    (split; [ reflexivity | ]); (split; [ exact F1 | ]);
    (split; [ apply insert_subseteq; exact F1 | ]); (split; [ exact Hq | ]);
    (split; [ exact Hn | ]); (split; [ reflexivity | ]);
    (split; [ lookup | ]); (split; [ lookup | ]).
  - apply identity_is_rotation.
  - rewrite quat_matrix_R. apply rotation_matrix_is_rotation. exact Hn.
Qed.

End EulerUnit.

(** ** The theorems above at concrete inputs *)

Section MoreWitnesses.
Local Open Scope R_scope.

Ltac sample := unfold sample_store, rotation_store; lookup.

Lemma matrixToQuaternion_of_rotation_witness :
  exists l, rotation_store 0 0 0 1 !! l = None /\
    (matrixToQuaternion loc_m (rotation_store 0 0 0 1) =
       (<[l := vec Float32Array [0; 0; 0; 1]]> (rotation_store 0 0 0 1),
        Ok l) \/
     matrixToQuaternion loc_m (rotation_store 0 0 0 1) =
       (<[l := vec Float32Array [- 0; - 0; - 0; - 1]]>
          (rotation_store 0 0 0 1), Ok l)).
Proof.
  apply (matrixToQuaternion_of_rotation (rotation_store 0 0 0 1) loc_m
           JSArray 0 0 0 1); [ sample | unfold norm2; lra ].
Defined.

Lemma matrix_round_trip_witness :
  exists s1 l1 s2 l2,
    matrixToQuaternion loc_m (rotation_store 0 1 0 0) = (s1, Ok l1) /\
    quaternionToMatrix l1 s1 = (s2, Ok l2) /\
    s2 !! l2 = Some (vec Float32Array (rotation_matrix 0 1 0 0)) /\
    s2 !! loc_m = Some (vec JSArray (rotation_matrix 0 1 0 0)).
Proof.
  apply (matrix_round_trip (rotation_store 0 1 0 0) loc_m JSArray 0 1 0 0);
    [ sample | unfold norm2; lra ].
Defined.

Lemma quaternionToMatrix_is_rotation_witness :
  exists s' l ml,
    quaternionToMatrix loc_q (sample_store [1; 2; 3; 4]) = (s', Ok l) /\
    s' !! l = Some (vec Float32Array ml) /\
    is_rotation ml.
Proof.
  apply (quaternionToMatrix_is_rotation (sample_store [1; 2; 3; 4]) loc_q
           Float32Array 1 2 3 4); sample.
Defined.

Lemma isValidRotationMatrix_verdict_witness :
  exists s' b,
    isValidRotationMatrix loc_m (sample_store [0; 0; 0; 1]) = (s', Ok b) /\
    sample_store [0; 0; 0; 1] ⊆ s' /\
    (is_rotation half_turn_Y -> b = true) /\
    (det3 half_turn_Y < 999 / 1000 \/ 1001 / 1000 < det3 half_turn_Y ->
     b = false).
Proof.
  apply (isValidRotationMatrix_verdict (sample_store [0; 0; 0; 1]) loc_m
           JSArray half_turn_Y); [ sample | reflexivity ].
Defined.

Lemma quaternionToMatrix_passes_validation_witness :
  exists s1 l s2,
    quaternionToMatrix loc_q (sample_store [1; 2; 3; 4]) = (s1, Ok l) /\
    isValidRotationMatrix l s1 = (s2, Ok true).
Proof.
  apply (quaternionToMatrix_passes_validation (sample_store [1; 2; 3; 4])
           loc_q Float32Array 1 2 3 4); sample.
Defined.


Lemma quaternionToAxisAngle_vertical_witness :
  let s := sample_store [0; 0; 0; -2] in
  (0 < -2 ->
   quaternionToAxisAngle loc_out loc_q "rad" s =
   (<[loc_out := vec Float32Array [1; 0; 0; 0]]>
      (<[loc_q := vec Float32Array [0; 0; 0; 1]]> s), Ok loc_out)) /\
  (-2 < 0 ->
   quaternionToAxisAngle loc_out loc_q "rad" s =
   (<[loc_out := vec Float32Array [1; 0; 0; 2 * PI]]>
      (<[loc_q := vec Float32Array [0; 0; 0; -1]]> s), Ok loc_out)) /\
  (-2 = 0 ->
   quaternionToAxisAngle loc_out loc_q "rad" s =
   (<[loc_out := vec Float32Array [0; 0; 0; PI]]>
      (<[loc_q := vec Float32Array [0; 0; 0; 0]]> s), Ok loc_out)).
Proof.
  apply (quaternionToAxisAngle_vertical (sample_store [0; 0; 0; -2]) loc_out
           loc_q Float32Array Float32Array (-2) 0 0 0 7 "rad");
    [ sample | sample | discriminate | right; reflexivity ].
Defined.

Lemma axisAngleToQuaternion_closed_form_witness :
  let n := sqrt (0 * 0 + 3 * 3 + 4 * 4) in
  exists s' l,
    axisAngleToQuaternion (N := RNumber) 0 3 4 PI "rad"
      (sample_store [0; 0; 0; 1]) = (s', Ok l) /\
    sample_store [0; 0; 0; 1] !! l = None /\
    s' !! l =
      Some (vec Float32Array
              [sin (PI / 2) * (0 / n); sin (PI / 2) * (3 / n);
               sin (PI / 2) * (4 / n); cos (PI / 2)]) /\
    norm2 (sin (PI / 2) * (0 / n)) (sin (PI / 2) * (3 / n))
          (sin (PI / 2) * (4 / n)) (cos (PI / 2)) = 1 /\
    sample_store [0; 0; 0; 1] ⊆ s'.
Proof.
  apply (axisAngleToQuaternion_closed_form (sample_store [0; 0; 0; 1])
           0 3 4 PI "rad"); [ right; reflexivity | intros (_ & H & _); lra ].
Defined.



Lemma only_out_is_written_witness :
  let s := sample_store [0; 0; 0; 1] in
  (forall l, l <> loc_euler ->
     (quaternionToEuler loc_euler loc_q "degrees" s).1 !! l = s !! l) /\
  (forall l, l <> loc_out ->
     (matrixToAxisAngle loc_out loc_m "degrees" s).1 !! l = s !! l).
Proof.
  apply (only_out_is_written (sample_store [0; 0; 0; 1]) loc_euler loc_out
           loc_q loc_m Float32Array JSArray Float32Array Float32Array
           0 0 0 1 (-1) 0 0 0 1 0 0 0 (-1) 0 0 0 0 0 0 7 "degrees");
    sample.
Defined.


Lemma getAxisAngleInputs_guards_engine_witness :
  let s := sample_store [0; 0; 0; 1] in
  (getAxisAngleInputs (N := RNumber) 0 3 4 90 s = (s, Throw InvalidAxis)
   <-> 0 = 0 /\ 3 = 0 /\ 4 = 0) /\
  (~ (0 = 0 /\ 3 = 0 /\ 4 = 0) ->
   getAxisAngleInputs (N := RNumber) 0 3 4 90 s = (s, Ok (0, 3, 4, 90)) /\
   exists s' l qx qy qz qw,
     axisAngleToQuaternion (N := RNumber) 0 3 4 90 "deg" s = (s', Ok l) /\
     s' !! l = Some (vec Float32Array [qx; qy; qz; qw]) /\
     norm2 qx qy qz qw = 1).
Proof.
  apply (getAxisAngleInputs_guards_engine 0 3 4 90 "deg"
           (sample_store [0; 0; 0; 1])); left; reflexivity.
Defined.



Lemma eulerToQuaternion_unit_witness :
  exists s1 l x y z w s2 lm ml,
    eulerToQuaternion (N := RNumber) 90 30 (-45) "deg"
      (sample_store [0; 0; 0; 1]) = (s1, Ok l) /\
    sample_store [0; 0; 0; 1] !! l = None /\
    sample_store [0; 0; 0; 1] ⊆ s1 /\
    s1 !! l = Some (vec Float32Array [x; y; z; w]) /\
    norm2 x y z w = 1 /\
    quaternionToMatrix l s1 = (s2, Ok lm) /\
    s2 !! l = Some (vec Float32Array [x; y; z; w]) /\
    s2 !! lm = Some (vec Float32Array ml) /\
    is_rotation ml.
Proof.
  apply (eulerToQuaternion_unit (sample_store [0; 0; 0; 1]) 90 30 (-45) "deg").
  left; reflexivity.
Defined.

End MoreWitnesses.
